(** * libguard / devtree: resolving a physical path to an [EntityPath]

    A shallow embedding of [src/libguard/devtree/phal_devtree.cpp]:
    the visitor [pdbgCallbackToGetPhysicaBinaryPath] and the resolver
    [getEntityPathFromDevTree], together with the pieces of the C and C++
    runtime they call ([std::string], [strncpy], [strcmp], [memset]) and
    the two file-scope buffers they share. *)

From Stdlib Require Import ZArith Lia.
From Stdlib.Strings Require Import Ascii String Byte.
From stdpp Require Import base option list strings.

#[local] Open Scope Z_scope.

(* ================================================================== *)
(** * Characters and the [std::string] operations in use *)
(* ================================================================== *)

Module Char.

Definition code (c : ascii) : Z := Z.of_N (N_of_ascii c).

(** The terminator of a C string. *)
Definition NUL : ascii := Ascii.zero.

(** [::tolower] in the "C" locale: the 26 capitals are moved to their
    small letters, every other character is returned as it is. *)
Definition tolower (c : ascii) : ascii :=
  if (65 <=? code c) && (code c <=? 90)
  then ascii_of_N (N_of_ascii c + 32)
  else c.

End Char.

Module StdString.

(** [std::transform(s.begin(), s.end(), s.begin(), f)]. *)
Fixpoint transform (f : ascii -> ascii) (s : string) : string :=
  match s with
  | EmptyString => EmptyString
  | String c s' => String (f c) (transform f s')
  end.

(** The member functions below take a position; [std::string] raises
    [std::out_of_range] when the position is past the end, which is
    [None] here. *)

(** [s.compare(pos, len, t)]: the sign of comparing
    [s.substr(pos, len)] with [t]. *)
Definition compare (pos len : nat) (t s : string) : option comparison :=
  if decide (pos ≤ String.length s)%nat
  then Some (String.compare (String.substring pos len s) t)
  else None.

(** [s.erase(pos, n)]. *)
Definition erase (pos n : nat) (s : string) : option string :=
  if decide (pos ≤ String.length s)%nat
  then Some (String.substring 0 pos s +:+
             String.substring (pos + n) (String.length s - (pos + n)) s)
  else None.

(** [s.find(t, pos, n)]: the first position at or after [pos] where the
    first [n] characters of [t] occur in [s]; [None] is [npos].  It
    never raises. *)
Definition find (t : string) (pos n : nat) (s : string) : option nat :=
  String.index pos (String.substring 0 n t) s.

(** [s.insert(pos, t)]. *)
Definition insert (pos : nat) (t s : string) : option string :=
  if decide (pos ≤ String.length s)%nat
  then Some (String.substring 0 pos s +:+ t +:+
             String.substring pos (String.length s - pos) s)
  else None.

End StdString.

(* ================================================================== *)
(** * Fixed-size arrays and the C string functions *)
(* ================================================================== *)

Module CString.

(** [memset(a, c, sizeof(a))]: every cell of the array is overwritten. *)
Definition memset {A} (c : A) (n : nat) : list A := replicate n c.

(** [strncpy(a, s.c_str(), sizeof(a))]: copies up to the first NUL of
    the source or [n] characters, whichever comes first, and fills what
    is left of the [n] cells with NUL.  When the source has [n] or more
    characters before its NUL the array ends up without a terminator. *)
Fixpoint strncpy (src : string) (n : nat) : list ascii :=
  match n with
  | O => []
  | S n' =>
      match src with
      | EmptyString => Char.NUL :: strncpy EmptyString n'
      | String c src' =>
          if decide (c = Char.NUL)
          then Char.NUL :: strncpy EmptyString n'
          else c :: strncpy src' n'
      end
  end.

(** [strcmp(a, b)] on two arrays: compares cell by cell until the two
    differ or a NUL is reached in both.  [None] stands for running off
    the end of an array before that, which C leaves undefined. *)
Fixpoint strcmp (a b : list ascii) : option Z :=
  match a, b with
  | x :: a', y :: b' =>
      if decide (x = y)
      then if decide (x = Char.NUL) then Some 0 else strcmp a' b'
      else Some (Char.code x - Char.code y)
  | _, _ => None
  end.

End CString.

(* ================================================================== *)
(** * Lines 118-138: bringing the caller's path to the device-tree form *)
(* ================================================================== *)

(** The path as it stands when the length check of line 140 is reached.
    [None] would be a [std::out_of_range] escaping one of the calls. *)
Definition normalizePhysicalPath (physicalPath : string) : option string :=
  let l_physicalPath := StdString.transform Char.tolower physicalPath in
  c ← StdString.compare 0 1 "/" l_physicalPath;
  l_physicalPath ←
    (match c with
     | Eq => StdString.erase 0 1 l_physicalPath
     | _ => Some l_physicalPath
     end);
  match StdString.find "physical:" 0 9 l_physicalPath with
  | None => StdString.insert 0 "physical:" l_physicalPath
  | Some _ => Some l_physicalPath
  end.

(* ================================================================== *)
(** * Data model *)
(* ================================================================== *)

(** The sizes the translation unit takes from headers that are not part
    of it: the two attribute array types of the device tree
    ([ATTR_PHYS_DEV_PATH_Type], [ATTR_PHYS_BIN_PATH_Type]) and the guard
    record [EntityPath]. *)
Class Platform := {
  (** [sizeof(g_physStringPath)], a [char] array *)
  sizeof_physStringPath : nat;
  (** [sizeof(g_physBinaryPath)], a [uint8_t] array *)
  sizeof_physBinaryPath : nat;
  (** [sizeof(EntityPath)] *)
  sizeof_EntityPath : nat;
  (** [EntityPath::maxPathElements] *)
  maxPathElements : nat;
}.

Record PathElement := {
  targetType : byte;
  instance : byte;
}.

Record EntityPath := {
  type_size : byte;
  pathElements : list PathElement;
}.

(** [sizeof(entityPath.pathElements[0])]: two [uint8_t] members. *)
Definition sizeof_PathElement : nat := 2.

(** Modelled from the spec: the declaration of [EntityPath] is not in
    the translation unit; the spec has the elements that are not written
    by the decoder "left unset/zero", so the object declared at line 197
    starts out as zeros, with its [maxPathElements] cells. *)
Definition EntityPath_init {P : Platform} : EntityPath :=
  {| type_size := x00;
     pathElements :=
       replicate maxPathElements {| targetType := x00; instance := x00 |} |}.

Definition byteZ (b : byte) : Z := Z.of_N (Byte.to_N b).

(** ** Diagnostics *)

Variant LogLevel := GUARD_ERROR.

(** One call of [log::guard_log]: the level, the format string and the
    values passed for its conversions. *)
Record LogEntry := {
  log_level : LogLevel;
  log_format : string;
  log_args : list Z;
}.

(** ** The device tree *)

(** Modelled from the spec: [struct pdbg_target] belongs to libpdbg.
    Of a target this unit reads the two attributes named
    [ATTR_PHYS_DEV_PATH] and [ATTR_PHYS_BIN_PATH], each a buffer of
    bytes or not present. *)
Record pdbg_target := {
  ATTR_PHYS_DEV_PATH : option (list ascii);
  ATTR_PHYS_BIN_PATH : option (list byte);
}.

(** Modelled from the spec: the macro [DT_GET_PROP(attr, target, buf)]
    comes with the attribute types of the device tree; it "returns a
    typed byte buffer for a named attribute of a given node, or signals
    not present".  It fills the array [buf] and gives zero, or gives
    non-zero ([None]) when the target has no such attribute; an
    attribute that has not the size of [buf] is not of its type, and is
    not present either. *)
Definition DT_GET_PROP {A} (attr : option (list A)) (size : nat)
  : option (list A) :=
  v ← attr; if decide (length v = size) then Some v else None.

(** ** The file-scope state, and what a call can come to *)

Record Globals := {
  g_physBinaryPath : list byte;
  g_physStringPath : list ascii;
  (** what has been handed to [log::guard_log] so far, oldest first *)
  guard_log_out : list LogEntry;
}.

Definition set_physBinaryPath (v : list byte) (σ : Globals) : Globals :=
  {| g_physBinaryPath := v;
     g_physStringPath := g_physStringPath σ;
     guard_log_out := guard_log_out σ |}.

Definition set_physStringPath (v : list ascii) (σ : Globals) : Globals :=
  {| g_physBinaryPath := g_physBinaryPath σ;
     g_physStringPath := v;
     guard_log_out := guard_log_out σ |}.

Definition add_log (e : LogEntry) (σ : Globals) : Globals :=
  {| g_physBinaryPath := g_physBinaryPath σ;
     g_physStringPath := g_physStringPath σ;
     guard_log_out := guard_log_out σ ++ [e] |}.

Inductive outcome (A : Type) : Type :=
| Returns (a : A) (σ : Globals)   (** normal return *)
| Throws (σ : Globals)            (** a C++ exception leaves the call *)
| Undefined.                      (** a read or write outside an array *)
Arguments Returns {A} a σ.
Arguments Throws {A} σ.
Arguments Undefined {A}.

Definition M (A : Type) : Type := Globals -> outcome A.

Definition ret {A} (a : A) : M A := fun σ => Returns a σ.

Definition bind {A B} (m : M A) (k : A -> M B) : M B :=
  fun σ =>
    match m σ with
    | Returns a σ' => k a σ'
    | Throws σ' => Throws σ'
    | Undefined => Undefined
    end.

Declare Scope guard_scope.
Delimit Scope guard_scope with guard.
Notation "x <- m ;; k" := (bind m (fun x => k))
  (at level 20, m at level 99, k at level 200, only parsing) : guard_scope.
Notation "m ';;' k" := (bind m (fun _ => k))
  (at level 100, k at level 200, right associativity) : guard_scope.

Definition gets {A} (f : Globals -> A) : M A := fun σ => Returns (f σ) σ.
Definition modify (f : Globals -> Globals) : M unit :=
  fun σ => Returns tt (f σ).

(** A library call that may raise. *)
Definition or_throw {A} (o : option A) : M A :=
  fun σ => match o with Some a => Returns a σ | None => Throws σ end.

(** An array access that may be out of bounds. *)
Definition or_undefined {A} (o : option A) : M A :=
  fun σ => match o with Some a => Returns a σ | None => Undefined end.

Definition guard_log (lvl : LogLevel) (fmt : string) (args : list Z)
  : M unit :=
  modify (add_log {| log_level := lvl; log_format := fmt;
                     log_args := args |}).

(** What the caller of a function gets back, when it returns. *)
Definition returned {A} (o : outcome A) : option A :=
  match o with Returns a _ => Some a | _ => None end.

(** [size_t] arithmetic is modulo [2^64]. *)
Definition size_t_sub (a b : Z) : Z := (a - b) mod 2 ^ 64.

(* ================================================================== *)
(** * Lines 24-26 and 56-109: the traversal callback *)
(* ================================================================== *)

Definition continueTgtTraversal : Z := 0.
Definition requireAttrFound : Z := 1.
Definition requireAttrNotFound : Z := 2.

#[local] Open Scope guard_scope.

Section Resolver.
Context {P : Platform}.

Definition pdbgCallbackToGetPhysicaBinaryPath (target : pdbg_target)
  : M Z :=
  match DT_GET_PROP (ATTR_PHYS_DEV_PATH target) sizeof_physStringPath with
  | None => ret continueTgtTraversal
  | Some physStringPath =>
      g <- gets g_physStringPath;;
      c <- or_undefined (CString.strcmp g physStringPath);;
      if negb (c =? 0) then ret continueTgtTraversal
      else
        modify (set_physBinaryPath
                  (CString.memset x00 sizeof_physBinaryPath));;
        match DT_GET_PROP (ATTR_PHYS_BIN_PATH target)
                          sizeof_physBinaryPath with
        | None => ret requireAttrNotFound
        | Some v => modify (set_physBinaryPath v);;
                    ret requireAttrFound
        end
  end.

(** Modelled from the spec: [pdbg_traverse(nullptr, cb, nullptr)] is
    the walk of the device tree that libpdbg provides; it "walks nodes;
    returns 0 if no visitor call returned non-zero, otherwise returns
    that call's code", in an order that is fixed but its own.  The tree
    is given here as its targets in the order the walk meets them; the
    walk ends at the first target for which the callback gives a
    non-zero value. *)
Fixpoint pdbg_traverse (targets : list pdbg_target)
                       (cb : pdbg_target -> M Z) : M Z :=
  match targets with
  | [] => ret 0
  | t :: rest =>
      rc <- cb t;;
      if negb (rc =? 0) then ret rc else pdbg_traverse rest cb
  end.

(* ================================================================== *)
(** * Lines 111-218: getEntityPathFromDevTree *)
(* ================================================================== *)

(** Lines 118-163.  Normalises the path, checks its length and puts it
    in [g_physStringPath].  [false]: the function has returned
    [std::nullopt] at line 147. *)
Definition installPhysStringPath (physicalPath : string) : M bool :=
  l_physicalPath <- or_throw (normalizePhysicalPath physicalPath);;
  let length := Z.of_nat (String.length l_physicalPath) in
  if size_t_sub length 1 >? Z.of_nat sizeof_physStringPath then
    guard_log GUARD_ERROR
      "Physical path size mismatch with given[%zu] and max size[%zu]"
      [Z.of_nat sizeof_physStringPath; size_t_sub length 1];;
    ret false
  else
    modify (set_physStringPath
              (CString.memset Char.NUL sizeof_physStringPath));;
    modify (set_physStringPath
              (CString.strncpy l_physicalPath sizeof_physStringPath));;
    ret true.

(** The loop of lines 210-215, with [n] iterations still to run. *)
Fixpoint copyPathElements (n : nat) (i j : nat) (raw : list byte)
                          (entityPath : EntityPath)
  : option EntityPath :=
  match n with
  | O => Some entityPath
  | S n' =>
      t ← raw !! j;
      ins ← raw !! (j + 1)%nat;
      if decide (i < length (pathElements entityPath))%nat then
        copyPathElements n' (i + 1)%nat (j + sizeof_PathElement)%nat raw
          {| type_size := type_size entityPath;
             pathElements :=
               <[i := {| targetType := t; instance := ins |}]>
                 (pathElements entityPath) |}
      else None
  end.

(** Lines 197-217: reading [g_physBinaryPath] into an [EntityPath]. *)
Definition decodePhysBinaryPath : M (option EntityPath) :=
  raw <- gets g_physBinaryPath;;
  b0 <- or_undefined (raw !! 0%nat);;
  let entityPath :=
    {| type_size := b0; pathElements := pathElements EntityPath_init |} in
  let pathElementsSize := Z.land (byteZ (type_size entityPath)) 0x0F in
  if pathElementsSize >? Z.of_nat maxPathElements then
    guard_log GUARD_ERROR
      "Path elements size mismatch with devtree[%u] guard max size[%d]"
      [pathElementsSize; Z.of_nat maxPathElements];;
    ret None
  else
    entityPath <-
      or_undefined
        (copyPathElements (Z.to_nat pathElementsSize) 0 1 raw entityPath);;
    ret (Some entityPath).

(** Lines 169-217: what is done with the value of [pdbg_traverse]. *)
Definition afterTraverse (ret_ : Z) : M (option EntityPath) :=
  if ret_ =? 0 then
    guard_log GUARD_ERROR
      "Given physical path not found in power system device tree" [];;
    ret None
  else if ret_ =? requireAttrNotFound then
    guard_log GUARD_ERROR
      "Binary value for given physical path is not found in device tree"
      [];;
    ret None
  else if (sizeof_EntityPath <? sizeof_physBinaryPath)%nat then
    guard_log GUARD_ERROR
      "Physical path binary size mismatch with devtree[%zu] guard[%zu]"
      [Z.of_nat sizeof_physBinaryPath; Z.of_nat sizeof_EntityPath];;
    ret None
  else decodePhysBinaryPath.

Definition getEntityPathFromDevTree (devtree : list pdbg_target)
                                    (physicalPath : string)
  : M (option EntityPath) :=
  ok <- installPhysStringPath physicalPath;;
  if ok then
    ret_ <- pdbg_traverse devtree pdbgCallbackToGetPhysicaBinaryPath;;
    afterTraverse ret_
  else ret None.

End Resolver.

(* ================================================================== *)
(** * Two calls in flight *)
(* ================================================================== *)

(** A call of [getEntityPathFromDevTree] touches the file-scope buffers
    in three places: it writes [g_physStringPath] (lines 155-163), it
    runs the traversal whose callback reads [g_physStringPath] and
    writes [g_physBinaryPath] (line 165), and it reads
    [g_physBinaryPath] (lines 198-215).  A call is followed from one of
    these places to the next. *)
Variant call :=
| AtEntry (physicalPath : string)
| AtTraverse
| AtDecode (ret_ : Z)
| Returned (r : option EntityPath).

Section Calls.
Context {P : Platform}.

Definition call_step (devtree : list pdbg_target) (c : call) : M call :=
  match c with
  | AtEntry physicalPath =>
      ok <- installPhysStringPath physicalPath;;
      ret (if ok : bool then AtTraverse else Returned None)
  | AtTraverse =>
      ret_ <- pdbg_traverse devtree pdbgCallbackToGetPhysicaBinaryPath;;
      ret (AtDecode ret_)
  | AtDecode ret_ =>
      r <- afterTraverse ret_;;
      ret (Returned r)
  | Returned r => ret (Returned r)
  end.

(** Two calls sharing the buffers; the schedule says which of the two
    moves next ([false]: the first, [true]: the second). *)
Fixpoint run_calls (devtree : list pdbg_target) (schedule : list bool)
                   (c1 c2 : call) : M (call * call) :=
  match schedule with
  | [] => ret (c1, c2)
  | false :: schedule' =>
      c1' <- call_step devtree c1;;
      run_calls devtree schedule' c1' c2
  | true :: schedule' =>
      c2' <- call_step devtree c2;;
      run_calls devtree schedule' c1 c2'
  end.

(** One call making [n] moves with nothing in between. *)
Fixpoint steps (devtree : list pdbg_target) (n : nat) (c : call)
  : M call :=
  match n with
  | O => ret c
  | S n' => c' <- call_step devtree c;; steps devtree n' c'
  end.

(** What a call gives when it is the only one using the buffers. *)
Definition alone (devtree : list pdbg_target) (physicalPath : string)
                 (σ : Globals) : option (option EntityPath) :=
  returned (getEntityPathFromDevTree devtree physicalPath σ).

(** The raw bytes [raw] and the entity path [ep] agree: byte 0 is
    [type_size], and the pair at offsets [1 + 2i], [2 + 2i] is element
    [i], for each [i] below the count in the low nibble. *)
Definition mirrors (raw : list byte) (ep : EntityPath) : Prop :=
  raw !! 0%nat = Some (type_size ep) ∧
  ∀ i : nat,
    Z.of_nat i < Z.land (byteZ (type_size ep)) 0x0F →
    ∃ t ins,
      raw !! (1 + i * 2)%nat = Some t ∧
      raw !! (2 + i * 2)%nat = Some ins ∧
      pathElements ep !! i = Some {| targetType := t; instance := ins |}.

(** Two calls with different paths, moving in any order, each come
    back with what they would have given alone. *)
Definition calls_isolated : Prop :=
  ∀ (devtree : list pdbg_target) (schedule : list bool)
    (p1 p2 : string) (σ τ : Globals) (r1 r2 : option EntityPath),
    p1 ≠ p2 →
    run_calls devtree schedule (AtEntry p1) (AtEntry p2) σ
      = Returns (Returned r1, Returned r2) τ →
    alone devtree p1 σ = Some r1 ∧ alone devtree p2 σ = Some r2.

End Calls.

(** ** The diagnostics by the failure they report *)

Definition diag_TooLong (available required : Z) : LogEntry :=
  {| log_level := GUARD_ERROR;
     log_format :=
       "Physical path size mismatch with given[%zu] and max size[%zu]";
     log_args := [available; required] |}.

Definition diag_NotFound : LogEntry :=
  {| log_level := GUARD_ERROR;
     log_format :=
       "Given physical path not found in power system device tree";
     log_args := [] |}.

Definition diag_AttributeMissing : LogEntry :=
  {| log_level := GUARD_ERROR;
     log_format :=
       "Binary value for given physical path is not found in device tree";
     log_args := [] |}.

Definition diag_SizeMismatch (devtree guard : Z) : LogEntry :=
  {| log_level := GUARD_ERROR;
     log_format :=
       "Physical path binary size mismatch with devtree[%zu] guard[%zu]";
     log_args := [devtree; guard] |}.

Definition diag_CountOverflow (count max : Z) : LogEntry :=
  {| log_level := GUARD_ERROR;
     log_format :=
       "Path elements size mismatch with devtree[%u] guard max size[%d]";
     log_args := [count; max] |}.

Variant failure_diag : LogEntry → Prop :=
| is_TooLong a r : failure_diag (diag_TooLong a r)
| is_NotFound : failure_diag diag_NotFound
| is_AttributeMissing : failure_diag diag_AttributeMissing
| is_SizeMismatch d g : failure_diag (diag_SizeMismatch d g)
| is_CountOverflow c m : failure_diag (diag_CountOverflow c m).

(** ** Sample data for the examples *)

Module Sample.

(** A platform with a 64-byte string attribute, a 21-byte binary
    attribute and an [EntityPath] of ten elements in 21 bytes. *)
Definition platform : Platform :=
  {| sizeof_physStringPath := 64; sizeof_physBinaryPath := 21;
     sizeof_EntityPath := 21; maxPathElements := 10 |}.

(** The same with room for eight elements only. *)
Definition platform8 : Platform :=
  {| sizeof_physStringPath := 64; sizeof_physBinaryPath := 17;
     sizeof_EntityPath := 17; maxPathElements := 8 |}.

(** A device tree whose binary attribute is larger than the guard
    record. *)
Definition skewed : Platform :=
  {| sizeof_physStringPath := 64; sizeof_physBinaryPath := 32;
     sizeof_EntityPath := 21; maxPathElements := 10 |}.

(** The buffers as the loader leaves them: zeros. *)
Definition boot (P : Platform) : Globals :=
  {| g_physBinaryPath := replicate sizeof_physBinaryPath x00;
     g_physStringPath := replicate sizeof_physStringPath Char.NUL;
     guard_log_out := [] |}.

Definition target (P : Platform) (path : string) (bin : list byte)
  : pdbg_target :=
  {| ATTR_PHYS_DEV_PATH :=
       Some (CString.strncpy path sizeof_physStringPath);
     ATTR_PHYS_BIN_PATH :=
       Some (take sizeof_physBinaryPath
               (bin ++ replicate sizeof_physBinaryPath x00)) |}.

Definition bin_node0 : list byte := [x22; x01; x00; x02; x00].
Definition bin_proc1 : list byte := [x23; x01; x00; x02; x00; x05; x01].

Definition devtree (P : Platform) : list pdbg_target :=
  [ target P "physical:sys-0" [x21; x01; x00];
    target P "physical:sys-0/node-0" bin_node0;
    {| ATTR_PHYS_DEV_PATH := None; ATTR_PHYS_BIN_PATH := None |};
    target P "physical:sys-0/node-0/proc-1" bin_proc1;
    {| ATTR_PHYS_DEV_PATH :=
         Some (CString.strncpy "physical:sys-0/node-0/proc-2"
                 sizeof_physStringPath);
       ATTR_PHYS_BIN_PATH := None |} ].

Definition element (t ins : byte) : PathElement :=
  {| targetType := t; instance := ins |}.

(** The entity paths of two of the targets, for ten elements. *)
Definition ep_node0 : EntityPath :=
  {| type_size := x22;
     pathElements :=
       [element x01 x00; element x02 x00]
         ++ replicate 8 (element x00 x00) |}.

Definition ep_proc1 : EntityPath :=
  {| type_size := x23;
     pathElements :=
       [element x01 x00; element x02 x00; element x05 x01]
         ++ replicate 7 (element x00 x00) |}.

(** Fifty-five letters: with the scheme in front, 64 characters. *)
Definition path55 : string :=
  "aaaaaaaaaaaaaaaaaaaaaaaaaaaaaaaaaaaaaaaaaaaaaaaaaaaaaaa".

(** Fifty-seven letters: with the scheme in front, 66 characters. *)
Definition path57 : string :=
  "aaaaaaaaaaaaaaaaaaaaaaaaaaaaaaaaaaaaaaaaaaaaaaaaaaaaaaaaa".

(** A device tree whose binary attribute has five bytes only, against a
    guard record of ten elements. *)
Definition short_binary : Platform :=
  {| sizeof_physStringPath := 64; sizeof_physBinaryPath := 5;
     sizeof_EntityPath := 21; maxPathElements := 10 |}.

End Sample.

(** ** Notions used to state the properties of the normalisation *)

(** The path with one leading separator removed, if it has one. *)
Definition strip_separator (s : string) : string :=
  match s with
  | String c s' => if decide (c = "/"%char) then s' else s
  | EmptyString => s
  end.

(** [t] is found in [s] at position [m]. *)
Definition occurs_at (t : string) (m : nat) (s : string) : Prop :=
  String.substring m (String.length t) s = t.

Definition begins_with (t s : string) : Prop := occurs_at t 0 s.

(** ** The traversal as a search *)

(** What the traversal comes to for a given content of
    [g_physStringPath], told without the buffers: the walk as a search
    through the targets.  It is related to [pdbg_traverse] with the
    callback by [pdbg_traverse_search] below. *)
Variant found :=
| NoMatch
| Match (v : list byte)
| MatchWithoutBinary
| RanOffArray.

Section Search.
Context {P : Platform}.

Definition look_at (s : list ascii) (t : pdbg_target) : found :=
  match DT_GET_PROP (ATTR_PHYS_DEV_PATH t) sizeof_physStringPath with
  | None => NoMatch
  | Some a =>
      match CString.strcmp s a with
      | None => RanOffArray
      | Some c =>
          if negb (c =? 0) then NoMatch
          else match DT_GET_PROP (ATTR_PHYS_BIN_PATH t)
                                 sizeof_physBinaryPath with
               | Some v => Match v
               | None => MatchWithoutBinary
               end
      end
  end.

Fixpoint search (s : list ascii) (devtree : list pdbg_target) : found :=
  match devtree with
  | [] => NoMatch
  | t :: rest =>
      match look_at s t with
      | NoMatch => search s rest
      | r => r
      end
  end.

(** The target [t] carries the path held in the array [s]: its string
    attribute has the size of the array and compares equal to it. *)
Definition names_path (s : list ascii) (t : pdbg_target) : Prop :=
  ∃ a, ATTR_PHYS_DEV_PATH t = Some a ∧
       length a = sizeof_physStringPath ∧
       CString.strcmp s a = Some 0.

End Search.

(** The array [a] holds the C string [l]: the characters of [l], a
    terminator, and whatever follows it. *)
Definition reads_as (l : string) (a : list ascii) : Prop :=
  ∃ r, a = list_ascii_of_string l ++ Char.NUL :: r.

(** A schedule in which one call has made all its moves before the
    other makes its first. *)
Definition one_after_the_other (schedule : list bool) : Prop :=
  ∃ (n m : nat) (b : bool),
    schedule = replicate n b ++ replicate m (negb b).

(* ================================================================== *)
(** * Properties of the [std::string] operations *)
(* ================================================================== *)

Lemma substring_all (s : string) :
  String.substring 0 (String.length s) s = s.
Proof. induction s as [|c s IH]; simpl; [done | by rewrite IH]. Qed.

Lemma substring_none (s : string) : String.substring 0 0 s = EmptyString.
Proof. by destruct s. Qed.

Lemma string_length_app (s t : string) :
  String.length (s +:+ t) = (String.length s + String.length t)%nat.
Proof. induction s as [|c s IH]; simpl; [done | by rewrite IH]. Qed.

Lemma insert_front (t s : string) : StdString.insert 0 t s = Some (t +:+ s).
Proof.
  unfold StdString.insert.
  destruct (decide _) as [_|Hn]; [|lia].
  by rewrite substring_none, Nat.sub_0_r, substring_all.
Qed.

Lemma erase_front (c : ascii) (s : string) :
  StdString.erase 0 1 (String c s) = Some s.
Proof.
  unfold StdString.erase.
  destruct (decide _) as [_|Hn]; [|simpl in Hn; lia].
  simpl. by rewrite Nat.sub_0_r, substring_all.
Qed.

Lemma compare_front (s : string) :
  StdString.compare 0 1 "/" s =
  Some (match s with
        | String c _ => String.compare (String c EmptyString) "/"
        | EmptyString => Lt
        end).
Proof.
  unfold StdString.compare.
  destruct (decide _) as [_|Hn]; [|lia].
  destruct s as [|c s]; [done|]. simpl. by rewrite substring_none.
Qed.

Lemma compare_char_eq (c : ascii) :
  String.compare (String c EmptyString) "/" = Eq ↔ c = "/"%char.
Proof.
  split.
  - intros E. apply String.compare_eq_iff in E. by injection E.
  - intros ->. reflexivity.
Qed.

(** Lines 126-129 remove one leading separator and nothing else; they
    never raise, also on the empty string. *)
Lemma strip_lines_126_129 (s : string) :
  (c ← StdString.compare 0 1 "/" s;
   match c with Eq => StdString.erase 0 1 s | _ => Some s end)
  = Some (strip_separator s).
Proof.
  rewrite compare_front. destruct s as [|c s]; [reflexivity|].
  cbn [mbind option_bind strip_separator].
  destruct (decide (c = "/"%char)) as [->|Hc].
  - change (String.compare "/" "/") with Eq. apply erase_front.
  - destruct (String.compare (String c EmptyString) "/") eqn:E; try done.
    by apply compare_char_eq in E.
Qed.

(** The normalisation, without the library calls. *)
Lemma normalizePhysicalPath_eq (physicalPath : string) :
  normalizePhysicalPath physicalPath =
  let l := strip_separator (StdString.transform Char.tolower physicalPath) in
  Some (match String.index 0 "physical:" l with
        | None => "physical:" +:+ l
        | Some _ => l
        end).
Proof.
  unfold normalizePhysicalPath.
  set (l0 := StdString.transform Char.tolower physicalPath).
  pose proof (strip_lines_126_129 l0) as E.
  destruct (StdString.compare 0 1 "/" l0) as [c|];
    cbn [mbind option_bind] in E |- *; [|discriminate E].
  rewrite E. cbn [mbind option_bind].
  unfold StdString.find.
  change (String.substring 0 9 "physical:") with "physical:".
  destruct (String.index 0 "physical:" _); [done|].
  apply insert_front.
Qed.

(** The normalisation never raises. *)
Lemma normalizePhysicalPath_total (physicalPath : string) :
  is_Some (normalizePhysicalPath physicalPath).
Proof. rewrite normalizePhysicalPath_eq. eauto. Qed.

(* ================================================================== *)
(** * Properties of the normalisation *)
(* ================================================================== *)

Lemma tolower_idem (c : ascii) : Char.tolower (Char.tolower c) = Char.tolower c.
Proof. destruct c as [[] [] [] [] [] [] [] []]; reflexivity. Qed.

Lemma tolower_separator (c : ascii) :
  Char.tolower c = "/"%char ↔ c = "/"%char.
Proof.
  split; [|by intros ->].
  destruct c as [[] [] [] [] [] [] [] []]; vm_compute; congruence.
Qed.

Lemma transform_idem (s : string) :
  StdString.transform Char.tolower (StdString.transform Char.tolower s)
  = StdString.transform Char.tolower s.
Proof.
  induction s as [|c s IH]; simpl; [done|]. by rewrite tolower_idem, IH.
Qed.

Lemma transform_app (f : ascii → ascii) (s t : string) :
  StdString.transform f (s +:+ t)
  = StdString.transform f s +:+ StdString.transform f t.
Proof. induction s as [|c s IH]; simpl; [done | by rewrite IH]. Qed.

(** Stripping the separator from a lower-case string leaves a
    lower-case string. *)
Lemma transform_strip_fixed (s : string) :
  StdString.transform Char.tolower s = s →
  StdString.transform Char.tolower (strip_separator s) = strip_separator s.
Proof.
  destruct s as [|c s]; [done|]. simpl. intros [= Hc Hs].
  destruct (decide _); [done|]. simpl. by rewrite Hc, Hs.
Qed.

Lemma index_scheme_front (l : string) :
  String.index 0 "physical:" ("physical:" +:+ l) = Some 0%nat.
Proof. destruct l; reflexivity. Qed.

Lemma index_behind_separator (l : string) (m : nat) :
  String.index 0 "physical:" (String "/" l) = Some m →
  ∃ m', String.index 0 "physical:" l = Some m'.
Proof.
  cbn. destruct (String.index 0 "physical:" l) as [m'|]; [eauto|done].
Qed.

(** A normalised path is in lower case and has the scheme somewhere. *)
Lemma normalized_lower (p y : string) :
  normalizePhysicalPath p = Some y →
  StdString.transform Char.tolower y = y.
Proof.
  rewrite normalizePhysicalPath_eq. cbv zeta. intros [= <-].
  pose proof (transform_strip_fixed _ (transform_idem p)) as E.
  destruct (String.index 0 "physical:" _); [done|].
  by rewrite transform_app, E.
Qed.

Lemma normalized_has_scheme (p y : string) :
  normalizePhysicalPath p = Some y →
  is_Some (String.index 0 "physical:" y).
Proof.
  rewrite normalizePhysicalPath_eq. cbv zeta.
  destruct (String.index 0 "physical:" _) eqn:E; intros [= <-].
  - rewrite E. eauto.
  - rewrite index_scheme_front. eauto.
Qed.

(** Normalising a normalised path removes a leading separator from it,
    if it has one, and changes nothing else. *)
Lemma normalize_twice (p y : string) :
  normalizePhysicalPath p = Some y →
  normalizePhysicalPath y = Some (strip_separator y).
Proof.
  intros Hy. rewrite (normalizePhysicalPath_eq y). cbv zeta.
  rewrite (normalized_lower _ _ Hy).
  destruct (normalized_has_scheme _ _ Hy) as [m Hm].
  destruct y as [|c y]; [discriminate Hm|].
  simpl strip_separator. destruct (decide (c = "/"%char)) as [->|_].
  - apply index_behind_separator in Hm as [m' ->]. done.
  - by rewrite Hm.
Qed.

Lemma strip_separator_fixed (y : string) :
  strip_separator y = y ↔ ¬ begins_with "/" y.
Proof.
  unfold begins_with, occurs_at. destruct y as [|c y]; simpl; [done|].
  rewrite substring_none.
  destruct (decide (c = "/"%char)) as [->|Hc].
  - split; [|done]. intros E. apply (f_equal String.length) in E.
    simpl in E. lia.
  - split; [|done]. intros _ [= ?]. done.
Qed.

(** So the normalisation gives the same on its own result exactly when
    that result does not begin with a separator. *)
Lemma normalize_idempotent_iff (p y : string) :
  normalizePhysicalPath p = Some y →
  normalizePhysicalPath y = Some y ↔ ¬ begins_with "/" y.
Proof.
  intros Hy. rewrite (normalize_twice _ _ Hy), <- strip_separator_fixed.
  split; [by intros [= ?] | by intros ->].
Qed.

(** The scheme is put in front exactly when it occurs nowhere in the
    lower-cased, stripped path. *)
Lemma normalize_prepends_iff_absent (p : string) :
  let l := strip_separator (StdString.transform Char.tolower p) in
  normalizePhysicalPath p = Some ("physical:" +:+ l)
  ↔ ∀ m, ¬ occurs_at "physical:" m l.
Proof.
  cbv zeta. rewrite normalizePhysicalPath_eq. cbv zeta.
  set (l := strip_separator _). unfold occurs_at.
  destruct (String.index 0 "physical:" l) as [m|] eqn:E.
  - split.
    + intros [= E']. apply (f_equal String.length) in E'.
      rewrite string_length_app in E'. simpl in E'. lia.
    + intros Hno. apply String.index_correct1 in E. by apply Hno in E.
  - split; [|done]. intros _ m.
    apply (String.index_correct3 0 m _ _ E); [done | lia].
Qed.

(** When the scheme does occur, wherever it is, the path is left as it
    is. *)
Lemma normalize_keeps_when_present (p : string) (m : nat) :
  let l := strip_separator (StdString.transform Char.tolower p) in
  occurs_at "physical:" m l → normalizePhysicalPath p = Some l.
Proof.
  cbv zeta. intros Hm. rewrite normalizePhysicalPath_eq. cbv zeta.
  destruct (String.index 0 "physical:" _) eqn:E; [done|].
  exfalso. revert Hm. apply (String.index_correct3 0 m _ _ E); [done | lia].
Qed.

(** A path given bare, with a leading separator, or with the scheme
    has one normal form, as long as it does not itself begin with a
    separator or hold the scheme inside. *)
Lemma three_forms_agree (s : string) :
  let l := StdString.transform Char.tolower s in
  ¬ begins_with "/" s →
  (∀ m, ¬ occurs_at "physical:" m l) →
  normalizePhysicalPath s = Some ("physical:" +:+ l) ∧
  normalizePhysicalPath (String "/" s) = Some ("physical:" +:+ l) ∧
  normalizePhysicalPath ("physical:" +:+ s) = Some ("physical:" +:+ l).
Proof.
  cbv zeta. intros Hsep Habsent.
  assert (Hstrip : strip_separator (StdString.transform Char.tolower s)
                   = StdString.transform Char.tolower s).
  { apply strip_separator_fixed. intros Hb. apply Hsep.
    unfold begins_with, occurs_at in *. destruct s as [|c s]; [done|].
    simpl in Hb |- *. rewrite substring_none in *.
    injection Hb as Hc. apply (proj1 (tolower_separator c)) in Hc.
    by rewrite Hc. }
  assert (Hbare : normalizePhysicalPath s
                  = Some ("physical:" +:+ StdString.transform Char.tolower s)).
  { pose proof (proj2 (normalize_prepends_iff_absent s)) as Hn.
    cbv zeta in Hn. rewrite Hstrip in Hn. by apply Hn. }
  split; [exact Hbare|]. split.
  - rewrite normalizePhysicalPath_eq in Hbare |- *. cbv zeta in *.
    rewrite Hstrip in Hbare.
    cbn [StdString.transform strip_separator].
    change (Char.tolower "/") with "/"%char.
    by destruct (decide ("/"%char = "/"%char)).
  - rewrite normalizePhysicalPath_eq. cbv zeta.
    rewrite transform_app.
    change (StdString.transform Char.tolower "physical:") with "physical:".
    change (strip_separator ("physical:" +:+ ?x)) with ("physical:" +:+ x).
    by rewrite index_scheme_front.
Qed.

(* ================================================================== *)
(** * The length check and the write of [g_physStringPath] *)
(* ================================================================== *)

Section ResolverFacts.
Context {P : Platform}.

Lemma substring_length_le (m n : nat) (s : string) :
  (String.length (String.substring m n s) ≤ String.length s)%nat.
Proof.
  revert m n. induction s as [|c s IH]; intros [|m] [|n]; simpl; try lia.
  - specialize (IH 0%nat n). lia.
  - specialize (IH m 0%nat). lia.
  - specialize (IH m (S n)). lia.
Qed.

(** After line 138 the path has at least the nine characters of the
    scheme, so [length() - 1] does not wrap below zero. *)
Lemma normalized_length (p l : string) :
  normalizePhysicalPath p = Some l → (9 ≤ String.length l)%nat.
Proof.
  intros Hl. destruct (normalized_has_scheme _ _ Hl) as [m Hm].
  apply String.index_correct1 in Hm.
  apply (f_equal String.length) in Hm.
  pose proof (substring_length_le m (String.length "physical:") l).
  simpl in *. lia.
Qed.

Lemma size_t_sub_small (a : Z) :
  1 ≤ a < 2 ^ 64 → size_t_sub a 1 = a - 1.
Proof. intros Ha. unfold size_t_sub. apply Z.mod_small. lia. Qed.

(** Lines 118-163 in one equation. *)
Lemma installPhysStringPath_eq (p : string) (σ : Globals) :
  installPhysStringPath p σ =
  match normalizePhysicalPath p with
  | None => Throws σ
  | Some l =>
      let n := size_t_sub (Z.of_nat (String.length l)) 1 in
      if n >? Z.of_nat sizeof_physStringPath
      then Returns false
             (add_log (diag_TooLong (Z.of_nat sizeof_physStringPath) n) σ)
      else Returns true
             (set_physStringPath
                (CString.strncpy l sizeof_physStringPath) σ)
  end.
Proof.
  unfold installPhysStringPath, bind, or_throw.
  destruct (normalizePhysicalPath p) as [l|]; [|done].
  cbv zeta. destruct (_ >? _); reflexivity.
Qed.

(** The check of line 140 turns a path away exactly when it has at
    least two characters more than the array has cells. *)
Lemma length_check_threshold (p l : string) (σ : Globals) :
  normalizePhysicalPath p = Some l →
  Z.of_nat (String.length l) < 2 ^ 64 →
  installPhysStringPath p σ =
  if decide (sizeof_physStringPath + 2 ≤ String.length l)%nat
  then Returns false
         (add_log (diag_TooLong (Z.of_nat sizeof_physStringPath)
                     (Z.of_nat (String.length l) - 1)) σ)
  else Returns true
         (set_physStringPath (CString.strncpy l sizeof_physStringPath) σ).
Proof.
  intros Hl Hlen. rewrite installPhysStringPath_eq, Hl. cbv zeta.
  pose proof (normalized_length _ _ Hl).
  rewrite size_t_sub_small by lia.
  destruct (decide _) as [Hge|Hlt].
  - rewrite (proj2 (Z.gtb_gt _ _)) by lia. done.
  - destruct (_ >? _) eqn:E; [|done].
    apply Z.gtb_gt in E. lia.
Qed.

(** A path that the length check turns away is not looked for: the
    call returns with the diagnostic, whatever the device tree is, and
    the buffers are as they were. *)
Lemma too_long_no_traversal (devtree : list pdbg_target) (p l : string)
      (σ : Globals) :
  normalizePhysicalPath p = Some l →
  Z.of_nat (String.length l) < 2 ^ 64 →
  (sizeof_physStringPath + 2 ≤ String.length l)%nat →
  getEntityPathFromDevTree devtree p σ =
  Returns None
    (add_log (diag_TooLong (Z.of_nat sizeof_physStringPath)
                (Z.of_nat (String.length l) - 1)) σ).
Proof.
  intros Hl Hlen Hge. unfold getEntityPathFromDevTree, bind.
  rewrite (length_check_threshold _ _ _ Hl Hlen).
  by destruct (decide _).
Qed.

(* ================================================================== *)
(** * The traversal *)
(* ================================================================== *)

(** One call of the callback, by what [look_at] finds. *)
Lemma callback_look_at (t : pdbg_target) (σ : Globals) :
  pdbgCallbackToGetPhysicaBinaryPath t σ =
  match look_at (g_physStringPath σ) t with
  | NoMatch => Returns continueTgtTraversal σ
  | Match v => Returns requireAttrFound (set_physBinaryPath v σ)
  | MatchWithoutBinary =>
      Returns requireAttrNotFound
        (set_physBinaryPath (replicate sizeof_physBinaryPath x00) σ)
  | RanOffArray => Undefined
  end.
Proof.
  unfold pdbgCallbackToGetPhysicaBinaryPath, look_at.
  destruct (DT_GET_PROP (ATTR_PHYS_DEV_PATH t) _) as [a|]; [|done].
  unfold bind, gets, or_undefined, modify, ret.
  destruct (CString.strcmp _ a) as [c|]; [|done].
  destruct (negb (c =? 0)); [done|].
  destruct (DT_GET_PROP (ATTR_PHYS_BIN_PATH t) _); reflexivity.
Qed.

(** The traversal with the callback is the search: it returns 0 and
    leaves the buffers alone when no target matches, and otherwise
    stops at the first target whose string attribute compares equal
    to [g_physStringPath]. *)
Lemma pdbg_traverse_search (devtree : list pdbg_target) (σ : Globals) :
  pdbg_traverse devtree pdbgCallbackToGetPhysicaBinaryPath σ =
  match search (g_physStringPath σ) devtree with
  | NoMatch => Returns 0 σ
  | Match v => Returns requireAttrFound (set_physBinaryPath v σ)
  | MatchWithoutBinary =>
      Returns requireAttrNotFound
        (set_physBinaryPath (replicate sizeof_physBinaryPath x00) σ)
  | RanOffArray => Undefined
  end.
Proof.
  induction devtree as [|t rest IH]; [done|].
  simpl. unfold bind at 1. rewrite callback_look_at.
  destruct (look_at _ t); [exact IH | done..].
Qed.

(** The traversal returns one of the three codes of lines 24-26. *)
Lemma pdbg_traverse_codes (devtree : list pdbg_target) (σ τ : Globals)
      (rc : Z) :
  pdbg_traverse devtree pdbgCallbackToGetPhysicaBinaryPath σ
    = Returns rc τ →
  rc = 0 ∨ rc = requireAttrFound ∨ rc = requireAttrNotFound.
Proof.
  rewrite pdbg_traverse_search.
  destruct (search _ devtree); intros [= <- <-] || discriminate; auto.
Qed.

(* ================================================================== *)
(** * The whole call *)
(* ================================================================== *)

Lemma afterTraverse_found (σ : Globals) :
  afterTraverse requireAttrFound σ =
  if (sizeof_EntityPath <? sizeof_physBinaryPath)%nat
  then Returns None
         (add_log (diag_SizeMismatch (Z.of_nat sizeof_physBinaryPath)
                     (Z.of_nat sizeof_EntityPath)) σ)
  else decodePhysBinaryPath σ.
Proof.
  unfold afterTraverse. simpl. by destruct (_ <? _)%nat.
Qed.

(** The call in one equation: the normalisation, the length check,
    the search and the decoding. *)
Lemma getEntityPathFromDevTree_eq (devtree : list pdbg_target)
      (p : string) (σ : Globals) :
  getEntityPathFromDevTree devtree p σ =
  match normalizePhysicalPath p with
  | None => Throws σ
  | Some l =>
      let n := size_t_sub (Z.of_nat (String.length l)) 1 in
      if n >? Z.of_nat sizeof_physStringPath
      then Returns None
             (add_log (diag_TooLong (Z.of_nat sizeof_physStringPath) n) σ)
      else
        let s := CString.strncpy l sizeof_physStringPath in
        let σ1 := set_physStringPath s σ in
        match search s devtree with
        | NoMatch => Returns None (add_log diag_NotFound σ1)
        | MatchWithoutBinary =>
            Returns None
              (add_log diag_AttributeMissing
                 (set_physBinaryPath
                    (replicate sizeof_physBinaryPath x00) σ1))
        | RanOffArray => Undefined
        | Match v => afterTraverse requireAttrFound
                       (set_physBinaryPath v σ1)
        end
  end.
Proof.
  unfold getEntityPathFromDevTree, bind at 1.
  rewrite installPhysStringPath_eq.
  destruct (normalizePhysicalPath p) as [l|]; [|done]. cbv zeta.
  destruct (_ >? _); [done|].
  unfold bind. rewrite pdbg_traverse_search.
  change (g_physStringPath (set_physStringPath ?s σ)) with s.
  destruct (search _ devtree); reflexivity.
Qed.

(* ================================================================== *)
(** * The decoding loop *)
(* ================================================================== *)

(** What the loop of lines 210-215 has done when it ends without
    leaving an array: the cells [i .. i+n-1] hold the pairs of the raw
    bytes, the others are as before. *)
Lemma copyPathElements_Some (n i : nat) (raw : list byte)
      (ep ep' : EntityPath) :
  copyPathElements n i (1 + i * 2) raw ep = Some ep' →
  type_size ep' = type_size ep ∧
  length (pathElements ep') = length (pathElements ep) ∧
  (∀ k, (i ≤ k < i + n)%nat →
     ∃ t ins,
       raw !! (1 + k * 2)%nat = Some t ∧
       raw !! (2 + k * 2)%nat = Some ins ∧
       pathElements ep' !! k =
         Some {| targetType := t; instance := ins |}) ∧
  (∀ k, ¬ (i ≤ k < i + n)%nat →
     pathElements ep' !! k = pathElements ep !! k).
Proof.
  revert i ep. induction n as [|n IH]; intros i ep.
  - intros [= <-].
    split; [done|]. split; [done|]. split; [intros k Hk; lia | done].
  - cbn [copyPathElements].
    replace (1 + i * 2 + 1)%nat with (2 + i * 2)%nat by lia.
    replace (1 + i * 2 + sizeof_PathElement)%nat
      with (1 + (i + 1) * 2)%nat by (unfold sizeof_PathElement; lia).
    destruct (raw !! (1 + i * 2)%nat) as [t|] eqn:Et; [|done].
    cbn [mbind option_bind].
    destruct (raw !! (2 + i * 2)%nat) as [ins|] eqn:Ei; [|done].
    cbn [mbind option_bind].
    destruct (decide (i < length (pathElements ep))%nat) as [Hi|]; [|done].
    intros Hrec. apply IH in Hrec as (Hts & Hlen & Hin & Hout).
    cbn [type_size pathElements] in *.
    rewrite length_insert in Hlen.
    split; [done|]. split; [done|]. split.
    + intros k Hk. destruct (decide (k = i)) as [->|Hne].
      * exists t, ins. split; [done|]. split; [done|].
        rewrite Hout by lia. by apply list_lookup_insert_eq.
      * apply Hin. lia.
    + intros k Hk. rewrite Hout by lia.
      apply list_lookup_insert_ne. lia.
Qed.

(** The loop stays inside both arrays when the raw bytes hold the
    pairs it reads and the path has the cells it writes. *)
Lemma copyPathElements_is_Some (n i : nat) (raw : list byte)
      (ep : EntityPath) :
  (i + n ≤ length (pathElements ep))%nat →
  (2 * (i + n) < length raw)%nat →
  is_Some (copyPathElements n i (1 + i * 2) raw ep).
Proof.
  revert i ep. induction n as [|n IH]; intros i ep Hep Hraw; [by eexists|].
  cbn [copyPathElements].
  replace (1 + i * 2 + 1)%nat with (2 + i * 2)%nat by lia.
  replace (1 + i * 2 + sizeof_PathElement)%nat
    with (1 + (i + 1) * 2)%nat by (unfold sizeof_PathElement; lia).
  destruct (lookup_lt_is_Some_2 raw (1 + i * 2)%nat) as [t Et]; [lia|].
  destruct (lookup_lt_is_Some_2 raw (2 + i * 2)%nat) as [ins Ei]; [lia|].
  rewrite Et. cbn [mbind option_bind].
  rewrite Ei. cbn [mbind option_bind].
  destruct (decide (i < length (pathElements ep))%nat) as [Hi|]; [|lia].
  apply IH; cbn [pathElements]; [rewrite length_insert|]; lia.
Qed.

(** The count is the low nibble of the byte, a number from 0 to 15,
    whatever the high nibble is. *)
Lemma low_nibble (b : byte) :
  Z.land (byteZ b) 0x0F = byteZ b mod 16 ∧ 0 ≤ Z.land (byteZ b) 0x0F ≤ 15.
Proof.
  change 0x0F with (Z.ones 4). rewrite Z.land_ones by lia.
  change (Z.ones 4) with 15. change (2 ^ 4) with 16.
  split; [done|]. pose proof (Z.mod_pos_bound (byteZ b) 16). lia.
Qed.

(** Lines 197-217 read [g_physBinaryPath] and nothing else of the
    state, and write only to the log. *)
Lemma decodePhysBinaryPath_frame (σ σ' : Globals) :
  g_physBinaryPath σ = g_physBinaryPath σ' →
  returned (decodePhysBinaryPath σ) = returned (decodePhysBinaryPath σ').
Proof.
  intros E. unfold decodePhysBinaryPath, bind, gets, or_undefined.
  rewrite <- E. destruct (g_physBinaryPath σ !! 0%nat) as [b0|]; [|done].
  cbv zeta. destruct (_ >? _); [done|].
  destruct (copyPathElements _ _ _ _ _); done.
Qed.

(** When the decoding gives a path, the path mirrors the raw bytes. *)
Lemma decodePhysBinaryPath_mirrors (σ τ : Globals) (ep : EntityPath) :
  decodePhysBinaryPath σ = Returns (Some ep) τ →
  τ = σ ∧ mirrors (g_physBinaryPath σ) ep ∧
  length (pathElements ep) = maxPathElements.
Proof.
  unfold decodePhysBinaryPath, bind, gets, or_undefined.
  destruct (g_physBinaryPath σ !! 0%nat) as [b0|] eqn:E0; [|done].
  cbv zeta. cbn [type_size].
  destruct (_ >? _) eqn:Egt; [done|].
  destruct (copyPathElements _ _ _ _ _) as [ep'|] eqn:Ecp; [|done].
  intros [= -> ->]. split; [done|].
  apply (copyPathElements_Some _ 0) in Ecp as (Hts & Hlen & Hin & _).
  cbn [type_size pathElements] in *.
  unfold mirrors. rewrite Hts. split; [split|]; [done | |].
  - intros i Hi. apply Hin. pose proof (low_nibble b0). lia.
  - rewrite Hlen. unfold EntityPath_init. cbn [pathElements].
    apply length_replicate.
Qed.

(** With a count within [maxPathElements] and the pairs inside the raw
    array, lines 197-217 return a path. *)
Lemma decodePhysBinaryPath_in_bounds (σ : Globals) (k : nat) (b0 : byte) :
  g_physBinaryPath σ !! 0%nat = Some b0 →
  Z.land (byteZ b0) 0x0F = Z.of_nat k →
  (k ≤ maxPathElements)%nat →
  (2 * k < length (g_physBinaryPath σ))%nat →
  ∃ ep,
    decodePhysBinaryPath σ = Returns (Some ep) σ ∧
    type_size ep = b0 ∧
    ∀ i, (i < k)%nat →
      ∃ t ins,
        g_physBinaryPath σ !! (1 + i * 2)%nat = Some t ∧
        g_physBinaryPath σ !! (2 + i * 2)%nat = Some ins ∧
        pathElements ep !! i =
          Some {| targetType := t; instance := ins |}.
Proof.
  intros H0 Hk Hmax Hlen.
  destruct (copyPathElements_is_Some k 0 (g_physBinaryPath σ)
              {| type_size := b0;
                 pathElements := pathElements EntityPath_init |})
    as [ep Hep].
  { cbn [pathElements EntityPath_init]. rewrite length_replicate. lia. }
  { lia. }
  exists ep.
  pose proof (copyPathElements_Some _ _ _ _ _ Hep) as (Hts & _ & Hin & _).
  split; [|split; [exact Hts|]].
  - unfold decodePhysBinaryPath, bind, gets, or_undefined.
    rewrite H0. cbv zeta. cbn [type_size]. rewrite Hk.
    destruct (_ >? _) eqn:Egt; [apply Z.gtb_gt in Egt; lia|].
    rewrite Nat2Z.id. change (1 + 0 * 2)%nat with 1%nat in Hep.
    by rewrite Hep.
  - intros i Hi. apply Hin. lia.
Qed.

(** The two ways lines 197-217 can return. *)
Lemma decodePhysBinaryPath_cases (σ τ : Globals)
      (r : option EntityPath) :
  decodePhysBinaryPath σ = Returns r τ →
  (∃ ep, r = Some ep ∧ τ = σ) ∨
  (r = None ∧
   ∃ b0, g_physBinaryPath σ !! 0%nat = Some b0 ∧
         byteZ b0 mod 16 > Z.of_nat maxPathElements ∧
         τ = add_log (diag_CountOverflow (byteZ b0 mod 16)
                        (Z.of_nat maxPathElements)) σ).
Proof.
  unfold decodePhysBinaryPath, bind, gets, or_undefined.
  destruct (g_physBinaryPath σ !! 0%nat) as [b0|] eqn:E0; [|done].
  cbv zeta. cbn [type_size].
  destruct (low_nibble b0) as [-> _].
  destruct (_ >? _) eqn:Egt.
  - intros [= <- <-]. right. split; [done|]. exists b0.
    apply Z.gtb_gt in Egt. done.
  - destruct (copyPathElements _ _ _ _ _) as [ep|]; [|done].
    intros [= <- <-]. left. eauto.
Qed.

(* ================================================================== *)
(** * Calls and the shared buffers *)
(* ================================================================== *)

(** What a call returns does not depend on what it finds in the two
    buffers and in the log when it starts: it writes
    [g_physStringPath] before the traversal reads it, and reads
    [g_physBinaryPath] only after the callback has written it. *)
Lemma result_independent_of_buffers (devtree : list pdbg_target)
      (p : string) (σ σ' : Globals) :
  returned (getEntityPathFromDevTree devtree p σ)
  = returned (getEntityPathFromDevTree devtree p σ').
Proof.
  rewrite !getEntityPathFromDevTree_eq.
  destruct (normalizePhysicalPath p) as [l|]; [|done]. cbv zeta.
  destruct (_ >? _); [done|].
  destruct (search _ devtree); try done.
  rewrite !afterTraverse_found. destruct (_ <? _)%nat; [done|].
  by apply decodePhysBinaryPath_frame.
Qed.

Lemma steps_Returned (devtree : list pdbg_target) (n : nat)
      (r : option EntityPath) (σ : Globals) :
  steps devtree n (Returned r) σ = Returns (Returned r) σ.
Proof.
  induction n as [|n IH]; [done|]. simpl. unfold bind. simpl. exact IH.
Qed.

(** A call that has come back after some moves of its own has done
    what [getEntityPathFromDevTree] does. *)
Lemma steps_AtEntry (devtree : list pdbg_target) (n : nat) (p : string)
      (r : option EntityPath) (σ τ : Globals) :
  steps devtree n (AtEntry p) σ = Returns (Returned r) τ →
  getEntityPathFromDevTree devtree p σ = Returns r τ.
Proof.
  unfold getEntityPathFromDevTree, bind.
  destruct (installPhysStringPath p σ) as [[] σ1| |] eqn:Ei;
    [destruct (pdbg_traverse devtree _ σ1) as [rc σ2| |] eqn:Et;
       [destruct (afterTraverse rc σ2) as [r' σ3| |] eqn:Ea|..]|..];
    destruct n as [|[|[|n]]];
    repeat (progress (cbn [steps call_step]; unfold bind, ret;
                      rewrite ?Ei, ?Et, ?Ea; cbv beta iota));
    rewrite ?steps_Returned; try done.
  - by intros [= -> ->].
  - by intros [= <- <-].
  - by intros [= <- <-].
  - by intros [= <- <-].
Qed.

Lemma bind_assoc {A B C} (m : M A) (k : A → M B) (h : B → M C)
      (σ : Globals) :
  bind (bind m k) h σ = bind m (λ a, bind (k a) h) σ.
Proof. unfold bind. by destruct (m σ). Qed.

Lemma bind_ext {A B} (m : M A) (k k' : A → M B) (σ : Globals) :
  (∀ a τ, k a τ = k' a τ) → bind m k σ = bind m k' σ.
Proof. intros E. unfold bind. destruct (m σ); [apply E | done..]. Qed.

Lemma run_calls_app (devtree : list pdbg_target) (s1 s2 : list bool)
      (c1 c2 : call) (σ : Globals) :
  run_calls devtree (s1 ++ s2) c1 c2 σ =
  (c <- run_calls devtree s1 c1 c2;; run_calls devtree s2 c.1 c.2) σ.
Proof.
  revert c1 c2 σ. induction s1 as [|[] s1 IH]; intros c1 c2 σ; [done| |];
    cbn [app run_calls]; rewrite bind_assoc; apply bind_ext;
    intros; apply IH.
Qed.

Lemma run_calls_first (devtree : list pdbg_target) (n : nat)
      (c1 c2 : call) (σ : Globals) :
  run_calls devtree (replicate n false) c1 c2 σ =
  (c <- steps devtree n c1;; ret (c, c2)) σ.
Proof.
  revert c1 σ. induction n as [|n IH]; intros c1 σ; [done|].
  cbn [replicate run_calls steps]. rewrite bind_assoc.
  apply bind_ext. intros; apply IH.
Qed.

Lemma run_calls_second (devtree : list pdbg_target) (n : nat)
      (c1 c2 : call) (σ : Globals) :
  run_calls devtree (replicate n true) c1 c2 σ =
  (c <- steps devtree n c2;; ret (c1, c)) σ.
Proof.
  revert c2 σ. induction n as [|n IH]; intros c2 σ; [done|].
  cbn [replicate run_calls steps]. rewrite bind_assoc.
  apply bind_ext. intros; apply IH.
Qed.

(** Two calls one after the other: the first from the state the pair
    starts in, the second from the state the first leaves. *)
Lemma run_calls_in_turn (devtree : list pdbg_target) (n m : nat)
      (p1 p2 : string) (σ τ : Globals) (r1 r2 : option EntityPath) :
  run_calls devtree (replicate n false ++ replicate m true)
    (AtEntry p1) (AtEntry p2) σ = Returns (Returned r1, Returned r2) τ →
  ∃ σ1, getEntityPathFromDevTree devtree p1 σ = Returns r1 σ1 ∧
        getEntityPathFromDevTree devtree p2 σ1 = Returns r2 τ.
Proof.
  rewrite run_calls_app. unfold bind at 1. rewrite run_calls_first.
  unfold bind at 1.
  destruct (steps devtree n (AtEntry p1) σ) as [c1 σ1| |] eqn:E1;
    try done.
  cbn [ret fst snd]. rewrite run_calls_second. unfold bind.
  destruct (steps devtree m (AtEntry p2) σ1) as [c2 σ2| |] eqn:E2;
    try done.
  cbn [ret]. intros [= -> -> ->].
  exists σ1. split; by eapply steps_AtEntry.
Qed.

Lemma run_calls_in_turn_rev (devtree : list pdbg_target) (n m : nat)
      (p1 p2 : string) (σ τ : Globals) (r1 r2 : option EntityPath) :
  run_calls devtree (replicate n true ++ replicate m false)
    (AtEntry p1) (AtEntry p2) σ = Returns (Returned r1, Returned r2) τ →
  ∃ σ1, getEntityPathFromDevTree devtree p2 σ = Returns r2 σ1 ∧
        getEntityPathFromDevTree devtree p1 σ1 = Returns r1 τ.
Proof.
  rewrite run_calls_app. unfold bind at 1. rewrite run_calls_second.
  unfold bind at 1.
  destruct (steps devtree n (AtEntry p2) σ) as [c2 σ1| |] eqn:E2;
    try done.
  cbn [ret fst snd]. rewrite run_calls_first. unfold bind.
  destruct (steps devtree m (AtEntry p1) σ1) as [c1 σ2| |] eqn:E1;
    try done.
  cbn [ret]. intros [= -> -> ->].
  exists σ1. split; by eapply steps_AtEntry.
Qed.

(* ================================================================== *)
(** * Terminated and unterminated arrays *)
(* ================================================================== *)

Lemma strncpy_length (s : string) (n : nat) :
  length (CString.strncpy s n) = n.
Proof.
  revert s. induction n as [|n IH]; intros s; [done|].
  destruct s as [|c s]; cbn [CString.strncpy].
  - cbn [length]. by rewrite IH.
  - destruct (decide _); cbn [length]; by rewrite IH.
Qed.

Lemma strncpy_empty (n : nat) :
  CString.strncpy EmptyString n = replicate n Char.NUL.
Proof. induction n as [|n IH]; [done|]. simpl. by rewrite IH. Qed.

(** A source without NUL that is at least as long as the array fills
    it with its first characters: no terminator is written. *)
Lemma strncpy_full (s : string) (n : nat) :
  Char.NUL ∉ list_ascii_of_string s →
  (n ≤ String.length s)%nat →
  CString.strncpy s n = take n (list_ascii_of_string s).
Proof.
  revert s. induction n as [|n IH]; intros s Hnul Hlen; [done|].
  destruct s as [|c s]; [simpl in Hlen; lia|].
  cbn [CString.strncpy list_ascii_of_string take].
  cbn [list_ascii_of_string] in Hnul.
  apply not_elem_of_cons in Hnul as [Hc Hs].
  destruct (decide (c = Char.NUL)); [done|].
  rewrite IH; [done | done | simpl in Hlen; lia].
Qed.

(** A shorter source without NUL is followed by NULs up to the end of
    the array. *)
Lemma strncpy_padded (s : string) (n : nat) :
  Char.NUL ∉ list_ascii_of_string s →
  (String.length s < n)%nat →
  CString.strncpy s n =
  list_ascii_of_string s
    ++ Char.NUL :: replicate (n - String.length s - 1) Char.NUL.
Proof.
  revert s. induction n as [|n IH]; intros s Hnul Hlen; [lia|].
  destruct s as [|c s].
  - cbn [CString.strncpy list_ascii_of_string String.length app].
    rewrite strncpy_empty. f_equal. f_equal. lia.
  - cbn [CString.strncpy list_ascii_of_string String.length app].
    cbn [list_ascii_of_string] in Hnul.
    apply not_elem_of_cons in Hnul as [Hc Hs].
    destruct (decide (c = Char.NUL)); [done|].
    rewrite IH; [|done|simpl in Hlen; lia]. done.
Qed.

(** [strcmp] stays inside both arrays when the first has a terminator
    and the second is at least as long. *)
Lemma strcmp_terminated (s r b : list ascii) :
  (length (s ++ Char.NUL :: r) ≤ length b)%nat →
  is_Some (CString.strcmp (s ++ Char.NUL :: r) b).
Proof.
  revert b. induction s as [|x s IH]; intros [|y b] Hlen;
    cbn [app length] in Hlen; try lia; cbn [app CString.strcmp].
  - destruct (decide (Char.NUL = y)); [|by eexists].
    destruct (decide (Char.NUL = Char.NUL)); [by eexists | done].
  - destruct (decide (x = y)); [|by eexists].
    destruct (decide (x = Char.NUL)); [by eexists|].
    apply IH. lia.
Qed.

(** The other side of the length check: a path without NUL whose
    normal form has as many characters as the array has cells, or one
    more, is let through although it does not fit with its terminator,
    and the array is left without a terminator. *)
Lemma length_check_lets_unterminated_pass (p l : string) (σ : Globals) :
  normalizePhysicalPath p = Some l →
  Char.NUL ∉ list_ascii_of_string l →
  Z.of_nat (String.length l) < 2 ^ 64 →
  (sizeof_physStringPath ≤ String.length l)%nat →
  (String.length l ≤ sizeof_physStringPath + 1)%nat →
  ∃ σ1, installPhysStringPath p σ = Returns true σ1 ∧
        length (g_physStringPath σ1) = sizeof_physStringPath ∧
        Char.NUL ∉ g_physStringPath σ1.
Proof.
  intros Hl Hnul Hlen Hcap Hcap'.
  rewrite (length_check_threshold _ _ _ Hl Hlen).
  destruct (decide _) as [?|_]; [lia|].
  eexists. split; [done|]. cbn [g_physStringPath set_physStringPath].
  split; [apply strncpy_length|].
  rewrite strncpy_full by (done || lia).
  intros Hin. apply Hnul. by apply (subseteq_take sizeof_physStringPath).
Qed.

(* ================================================================== *)
(** * A path that is in the device tree *)
(* ================================================================== *)

Lemma look_at_NoMatch (s : list ascii) (t : pdbg_target) :
  look_at s t = NoMatch → ¬ names_path s t.
Proof.
  unfold look_at, DT_GET_PROP. intros Hl (a & Ha & Hlen & Hcmp).
  rewrite Ha in Hl. cbn [mbind option_bind] in Hl.
  destruct (decide _); [|done]. rewrite Hcmp in Hl. cbn in Hl.
  by destruct (_ ≫= _).
Qed.

Lemma look_at_Match (s : list ascii) (t : pdbg_target) (v : list byte) :
  look_at s t = Match v →
  names_path s t ∧ ATTR_PHYS_BIN_PATH t = Some v ∧
  length v = sizeof_physBinaryPath.
Proof.
  unfold look_at, DT_GET_PROP, names_path.
  destruct (ATTR_PHYS_DEV_PATH t) as [a|]; [|done].
  cbn [mbind option_bind]. destruct (decide (length a = _)); [|done].
  destruct (CString.strcmp s a) as [c|] eqn:Ec; [|done].
  destruct (c =? 0) eqn:E0; [|done]. apply Z.eqb_eq in E0 as ->.
  cbn [negb]. destruct (ATTR_PHYS_BIN_PATH t) as [w|]; [|done].
  cbn [mbind option_bind]. destruct (decide (length w = _)); [|done].
  intros [= <-]. eauto 10.
Qed.

Lemma look_at_MatchWithoutBinary (s : list ascii) (t : pdbg_target) :
  look_at s t = MatchWithoutBinary →
  names_path s t ∧
  ∀ v, ATTR_PHYS_BIN_PATH t = Some v → length v ≠ sizeof_physBinaryPath.
Proof.
  unfold look_at, DT_GET_PROP, names_path.
  destruct (ATTR_PHYS_DEV_PATH t) as [a|]; [|done].
  cbn [mbind option_bind]. destruct (decide (length a = _)); [|done].
  destruct (CString.strcmp s a) as [c|] eqn:Ec; [|done].
  destruct (c =? 0) eqn:E0; [|done]. apply Z.eqb_eq in E0 as ->.
  cbn [negb]. destruct (ATTR_PHYS_BIN_PATH t) as [w|].
  - cbn [mbind option_bind]. destruct (decide (length w = _)); [done|].
    intros _. split; [eauto 10|]. by intros v [= <-].
  - intros _. split; [eauto 10 | done].
Qed.

Lemma look_at_terminated (s r : list ascii) (t : pdbg_target) :
  length (s ++ Char.NUL :: r) = sizeof_physStringPath →
  look_at (s ++ Char.NUL :: r) t ≠ RanOffArray.
Proof.
  intros Hlen. unfold look_at.
  destruct (DT_GET_PROP (ATTR_PHYS_DEV_PATH t) _) as [a|] eqn:Ea; [|done].
  assert (length a = sizeof_physStringPath) as Hla.
  { unfold DT_GET_PROP in Ea. destruct (ATTR_PHYS_DEV_PATH t); [|done].
    cbn [mbind option_bind] in Ea. destruct (decide _); [|done].
    by injection Ea as <-. }
  destruct (strcmp_terminated s r a) as [c ->]; [lia|].
  destruct (negb _); [done|].
  by destruct (DT_GET_PROP (ATTR_PHYS_BIN_PATH t) _).
Qed.

(** The search ends at the first target that is not passed over. *)
Lemma search_first (s : list ascii) (devtree : list pdbg_target) :
  (search s devtree = NoMatch ∧
   ∀ t, t ∈ devtree → look_at s t = NoMatch) ∨
  (search s devtree ≠ NoMatch ∧
   ∃ t, t ∈ devtree ∧ look_at s t = search s devtree).
Proof.
  induction devtree as [|t rest IH].
  - left. split; [done|]. intros t Ht. by apply elem_of_nil in Ht.
  - cbn [search]. destruct (look_at s t) eqn:E.
    + destruct IH as [[Hs Hall]|[Hs (t' & Ht' & Hl)]].
      * left. split; [done|]. intros t' [->|Ht']%elem_of_cons; auto.
      * right. split; [done|]. exists t'.
        split; [by apply list_elem_of_further | done].
    + right. split; [done|]. exists t. split; [apply list_elem_of_here | done].
    + right. split; [done|]. exists t. split; [apply list_elem_of_here | done].
    + right. split; [done|]. exists t. split; [apply list_elem_of_here | done].
Qed.

(** A path that fits in the array with its terminator, that some
    target carries, and whose targets all have a binary attribute with
    a count within [maxPathElements], is resolved: the call returns a
    path, and the path mirrors the binary attribute of one of those
    targets. *)
Lemma present_path_resolves (devtree : list pdbg_target) (p l : string)
      (σ : Globals) :
  let s := CString.strncpy l sizeof_physStringPath in
  normalizePhysicalPath p = Some l →
  Char.NUL ∉ list_ascii_of_string l →
  (String.length l < sizeof_physStringPath)%nat →
  (sizeof_physBinaryPath ≤ sizeof_EntityPath)%nat →
  (2 * maxPathElements < sizeof_physBinaryPath)%nat →
  (∃ t, t ∈ devtree ∧ names_path s t) →
  (∀ t, t ∈ devtree → names_path s t →
     ∃ raw b0, ATTR_PHYS_BIN_PATH t = Some raw ∧
               length raw = sizeof_physBinaryPath ∧
               raw !! 0%nat = Some b0 ∧
               byteZ b0 mod 16 ≤ Z.of_nat maxPathElements) →
  ∃ t raw ep,
    t ∈ devtree ∧ names_path s t ∧ ATTR_PHYS_BIN_PATH t = Some raw ∧
    getEntityPathFromDevTree devtree p σ
      = Returns (Some ep) (set_physBinaryPath raw (set_physStringPath s σ)) ∧
    mirrors raw ep.
Proof.
  intros s Hl Hnul Hlen Hsz Hmax (t0 & Ht0 & Hn0) Hbin.
  rewrite getEntityPathFromDevTree_eq, Hl. cbv zeta.
  pose proof (normalized_length _ _ Hl) as H9.
  assert ((size_t_sub (Z.of_nat (String.length l)) 1
             >? Z.of_nat sizeof_physStringPath) = false) as ->.
  { destruct (_ >? _) eqn:E; [|done]. apply Z.gtb_gt in E.
    unfold size_t_sub in E.
    pose proof (Z.mod_le (Z.of_nat (String.length l) - 1) (2 ^ 64)). lia. }
  fold s.
  assert (Hterm : ∃ r, s = list_ascii_of_string l ++ Char.NUL :: r).
  { eexists. by apply strncpy_padded. }
  destruct Hterm as [r Hs].
  assert (Hslen : length s = sizeof_physStringPath) by apply strncpy_length.
  destruct (search_first s devtree) as [[_ Hall]|[Hne (t & Ht & Hlook)]].
  { apply Hall, look_at_NoMatch in Ht0. done. }
  destruct (search s devtree) as [|v| |] eqn:Es; [done| | |].
  - apply look_at_Match in Hlook as (Hn & Hv & Hvlen).
    destruct (Hbin t Ht Hn) as (raw & b0 & Hraw & _ & Hb0 & Hcount).
    replace raw with v in * by congruence.
    rewrite afterTraverse_found.
    rewrite (proj2 (Nat.ltb_ge _ _)) by lia.
    set (σ2 := set_physBinaryPath v (set_physStringPath s σ)).
    destruct (decodePhysBinaryPath_in_bounds σ2
                (Z.to_nat (byteZ b0 mod 16)) b0)
      as (ep & Hd & _); try done.
    + destruct (low_nibble b0) as [-> ?]. lia.
    + lia.
    + cbn [σ2 g_physBinaryPath set_physBinaryPath]. lia.
    + exists t, v, ep. rewrite Hd. split; [done|]. split; [done|].
      split; [done|]. split; [done|].
      by apply decodePhysBinaryPath_mirrors in Hd as (_ & Hm & _).
  - apply look_at_MatchWithoutBinary in Hlook as (Hn & Hno).
    destruct (Hbin t Ht Hn) as (raw & b0 & Hraw & Hrl & _).
    by apply Hno in Hraw.
  - exfalso. revert Hlook. rewrite Hs. apply look_at_terminated.
    by rewrite <- Hs.
Qed.

End ResolverFacts.

(* ================================================================== *)
(** * The binary path decoder *)
(* ================================================================== *)

(** C1.  When the low nibble of byte 0 of the raw buffer is [k], with
    [k] at most [maxPathElements] and the buffer holding the [k] pairs,
    the decoding gives an [EntityPath] whose [type_size] is byte 0 and
    whose element [i], for [i < k], is the pair of the bytes at offsets
    [1 + i*2] and [2 + i*2].  So a call of [getEntityPathFromDevTree]
    that returns a path returns one that mirrors the binary attribute
    of a target of the device tree, a target whose string attribute
    compares equal to the path looked for. *)
Theorem decode_mirrors_raw_bytes {P : Platform} :
  (∀ (σ : Globals) (k : nat) (b0 : byte),
     g_physBinaryPath σ !! 0%nat = Some b0 →
     Z.land (byteZ b0) 0x0F = Z.of_nat k →
     (k ≤ maxPathElements)%nat →
     (2 * k < length (g_physBinaryPath σ))%nat →
     ∃ ep,
       decodePhysBinaryPath σ = Returns (Some ep) σ ∧
       type_size ep = b0 ∧
       ∀ i, (i < k)%nat →
         ∃ t ins,
           g_physBinaryPath σ !! (1 + i * 2)%nat = Some t ∧
           g_physBinaryPath σ !! (2 + i * 2)%nat = Some ins ∧
           pathElements ep !! i =
             Some {| targetType := t; instance := ins |}) ∧
  (∀ (devtree : list pdbg_target) (p : string) (σ τ : Globals)
     (ep : EntityPath),
     getEntityPathFromDevTree devtree p σ = Returns (Some ep) τ →
     ∃ t raw,
       t ∈ devtree ∧ names_path (g_physStringPath τ) t ∧
       ATTR_PHYS_BIN_PATH t = Some raw ∧
       g_physBinaryPath τ = raw ∧ mirrors raw ep).
Proof.
  split; [exact decodePhysBinaryPath_in_bounds|].
  intros devtree p σ τ ep. rewrite getEntityPathFromDevTree_eq.
  destruct (normalizePhysicalPath p) as [l|]; [|done]. cbv zeta.
  destruct (_ >? _); [done|].
  destruct (search_first (CString.strncpy l sizeof_physStringPath) devtree)
    as [[-> _]|[_ (t & Ht & Hl)]]; [done|].
  destruct (search _ devtree) as [|v| |]; try done.
  rewrite afterTraverse_found. destruct (_ <? _)%nat; [done|].
  intros Hd. apply decodePhysBinaryPath_mirrors in Hd as (-> & Hm & _).
  apply look_at_Match in Hl as (Hn & Hv & _).
  exists t, v. done.
Qed.

Lemma decode_mirrors_raw_bytes_witness :
  (∃ ep,
     decodePhysBinaryPath (P := Sample.platform)
       (set_physBinaryPath
          (Sample.bin_node0 ++ replicate 16 x00)
          (Sample.boot Sample.platform))
     = Returns (Some ep)
         (set_physBinaryPath
            (Sample.bin_node0 ++ replicate 16 x00)
            (Sample.boot Sample.platform)) ∧
     type_size ep = x22 ∧
     ∀ i, (i < 2)%nat →
       ∃ t ins,
         (Sample.bin_node0 ++ replicate 16 x00) !! (1 + i * 2)%nat = Some t ∧
         (Sample.bin_node0 ++ replicate 16 x00) !! (2 + i * 2)%nat
           = Some ins ∧
         pathElements ep !! i = Some {| targetType := t; instance := ins |}) ∧
  (∃ t raw,
     t ∈ (Sample.devtree Sample.platform) ∧
     names_path (P := Sample.platform)
       (CString.strncpy "physical:sys-0/node-0" 64) t ∧
     ATTR_PHYS_BIN_PATH t = Some raw ∧
     Sample.bin_node0 ++ replicate 16 x00 = raw ∧
     mirrors raw Sample.ep_node0).
Proof.
  split.
  - apply (proj1 (decode_mirrors_raw_bytes (P := Sample.platform))
             (set_physBinaryPath
                (Sample.bin_node0 ++ replicate 16 x00)
                (Sample.boot Sample.platform))
             2%nat x22);
      [reflexivity | reflexivity | simpl; lia | simpl; lia].
  - apply (proj2 (decode_mirrors_raw_bytes (P := Sample.platform))
             (Sample.devtree Sample.platform) "/Sys-0/Node-0"
             (Sample.boot Sample.platform)
             (set_physBinaryPath (Sample.bin_node0 ++ replicate 16 x00)
                (set_physStringPath
                   (CString.strncpy "physical:sys-0/node-0" 64)
                   (Sample.boot Sample.platform)))
             Sample.ep_node0).
    vm_compute. reflexivity.
Defined.

(** C5.  The number of elements is the low nibble of byte 0 alone, that
    is, the byte modulo 16.  When it is more than [maxPathElements] the
    decoding returns no path and logs the count and the maximum, and it
    logs that only then.  With [maxPathElements = 8], a first byte 0x3F
    has count 15 and is turned away. *)
Theorem count_overflow {P : Platform} :
  (∀ (σ : Globals) (b0 : byte),
     g_physBinaryPath σ !! 0%nat = Some b0 →
     byteZ b0 mod 16 > Z.of_nat maxPathElements →
     decodePhysBinaryPath σ =
     Returns None
       (add_log (diag_CountOverflow (byteZ b0 mod 16)
                   (Z.of_nat maxPathElements)) σ)) ∧
  (∀ (σ τ : Globals) (b0 : byte),
     g_physBinaryPath σ !! 0%nat = Some b0 →
     decodePhysBinaryPath σ = Returns None τ →
     byteZ b0 mod 16 > Z.of_nat maxPathElements) ∧
  (maxPathElements = 8%nat →
   ∀ (σ : Globals) (rest : list byte),
     g_physBinaryPath σ = x3f :: rest →
     decodePhysBinaryPath σ =
     Returns None (add_log (diag_CountOverflow 15 8) σ)).
Proof.
  assert (Hfail : ∀ (σ : Globals) (b0 : byte),
     g_physBinaryPath σ !! 0%nat = Some b0 →
     byteZ b0 mod 16 > Z.of_nat maxPathElements →
     decodePhysBinaryPath σ =
     Returns None
       (add_log (diag_CountOverflow (byteZ b0 mod 16)
                   (Z.of_nat maxPathElements)) σ)).
  { intros σ b0 H0 Hgt.
    unfold decodePhysBinaryPath, bind, gets, or_undefined.
    rewrite H0. cbv zeta. cbn [type_size].
    destruct (low_nibble b0) as [-> _].
    by rewrite (proj2 (Z.gtb_gt _ _)) by lia. }
  split; [exact Hfail|]. split.
  - intros σ τ b0 H0 Hd.
    apply decodePhysBinaryPath_cases in Hd
      as [(ep & ? & _)|(_ & b & Hb & ? & _)]; [done|].
    by replace b0 with b by congruence.
  - intros Hmax σ rest Hraw.
    rewrite (Hfail σ x3f); [by rewrite Hmax | by rewrite Hraw |].
    rewrite Hmax. vm_compute. reflexivity.
Qed.

Lemma count_overflow_witness :
  decodePhysBinaryPath (P := Sample.platform8)
    (set_physBinaryPath (x3f :: replicate 16 x00)
       (Sample.boot Sample.platform8))
  = Returns None
      (add_log (diag_CountOverflow 15 8)
         (set_physBinaryPath (x3f :: replicate 16 x00)
            (Sample.boot Sample.platform8))) ∧
  decodePhysBinaryPath (P := Sample.platform)
    (set_physBinaryPath (xfb :: replicate 20 x00)
       (Sample.boot Sample.platform))
  = Returns None
      (add_log (diag_CountOverflow (byteZ xfb mod 16) 10)
         (set_physBinaryPath (xfb :: replicate 20 x00)
            (Sample.boot Sample.platform))) ∧
  byteZ xfb mod 16 > 10.
Proof.
  split; [|split].
  - apply (proj2 (proj2 (count_overflow (P := Sample.platform8)))
             eq_refl _ (replicate 16 x00)).
    reflexivity.
  - apply (proj1 (count_overflow (P := Sample.platform))
             (set_physBinaryPath (xfb :: replicate 20 x00)
                (Sample.boot Sample.platform))
             xfb); reflexivity.
  - apply (proj1 (proj2 (count_overflow (P := Sample.platform)))
             (set_physBinaryPath (xfb :: replicate 20 x00)
                (Sample.boot Sample.platform))
             (add_log (diag_CountOverflow 11 10)
                (set_physBinaryPath (xfb :: replicate 20 x00)
                   (Sample.boot Sample.platform)))
             xfb); reflexivity.
Defined.

(* ================================================================== *)
(** * The failures of a call *)
(* ================================================================== *)

(** C8.  When the traversal has found the binary attribute and
    [sizeof(EntityPath)] is less than [sizeof(g_physBinaryPath)], the
    call returns no path and logs the two sizes; nothing of
    [g_physBinaryPath] is read, so this holds whatever the buffer
    holds. *)
Theorem size_mismatch_before_decoding {P : Platform}
    (devtree : list pdbg_target) (p : string) (σ σ1 σ2 : Globals)
    (ret_ : Z) :
  (sizeof_EntityPath < sizeof_physBinaryPath)%nat →
  installPhysStringPath p σ = Returns true σ1 →
  pdbg_traverse devtree pdbgCallbackToGetPhysicaBinaryPath σ1
    = Returns ret_ σ2 →
  ret_ ≠ 0 → ret_ ≠ requireAttrNotFound →
  getEntityPathFromDevTree devtree p σ =
  Returns None
    (add_log (diag_SizeMismatch (Z.of_nat sizeof_physBinaryPath)
                (Z.of_nat sizeof_EntityPath)) σ2).
Proof.
  intros Hlt Hi Ht H0 H2.
  unfold getEntityPathFromDevTree, bind. rewrite Hi, Ht.
  unfold afterTraverse.
  rewrite (proj2 (Z.eqb_neq _ _) H0), (proj2 (Z.eqb_neq _ _) H2).
  by rewrite (proj2 (Nat.ltb_lt _ _) Hlt).
Qed.

Lemma size_mismatch_before_decoding_witness :
  getEntityPathFromDevTree (P := Sample.skewed)
    (Sample.devtree Sample.skewed) "sys-0/node-0" (Sample.boot Sample.skewed) =
  Returns None
    (add_log (diag_SizeMismatch 32 21)
       (set_physBinaryPath (Sample.bin_node0 ++ replicate 27 x00)
          (set_physStringPath
             (CString.strncpy "physical:sys-0/node-0" 64)
             (Sample.boot Sample.skewed)))).
Proof.
  apply (size_mismatch_before_decoding (P := Sample.skewed)
           (Sample.devtree Sample.skewed) "sys-0/node-0"
           (Sample.boot Sample.skewed)
           (set_physStringPath
              (CString.strncpy "physical:sys-0/node-0" 64)
              (Sample.boot Sample.skewed))
           _ requireAttrFound);
    [simpl; lia | reflexivity | reflexivity | done | done].
Defined.

(** C4.  Whenever [getEntityPathFromDevTree] returns no path it has
    logged exactly one of the five diagnostics, and when it returns a
    path it has logged nothing.  A traversal that gives 0 leads to the
    "not found" diagnostic, one that gives [requireAttrNotFound] to the
    "binary value not found" diagnostic; the two diagnostics differ and
    the value returned is the same [None]. *)
Theorem failures_return_absent {P : Platform} :
  (∀ (devtree : list pdbg_target) (p : string) (σ τ : Globals)
     (r : option EntityPath),
     getEntityPathFromDevTree devtree p σ = Returns r τ →
     (∃ ep, r = Some ep ∧ guard_log_out τ = guard_log_out σ) ∨
     (r = None ∧
      ∃ d, failure_diag d ∧ guard_log_out τ = guard_log_out σ ++ [d])) ∧
  (∀ (devtree : list pdbg_target) (p : string) (σ σ1 σ2 : Globals)
     (ret_ : Z),
     installPhysStringPath p σ = Returns true σ1 →
     pdbg_traverse devtree pdbgCallbackToGetPhysicaBinaryPath σ1
       = Returns ret_ σ2 →
     (ret_ = 0 →
      getEntityPathFromDevTree devtree p σ
        = Returns None (add_log diag_NotFound σ2)) ∧
     (ret_ = requireAttrNotFound →
      getEntityPathFromDevTree devtree p σ
        = Returns None (add_log diag_AttributeMissing σ2))) ∧
  diag_NotFound ≠ diag_AttributeMissing.
Proof.
  split; [|split; [|done]].
  - intros devtree p σ τ r. rewrite getEntityPathFromDevTree_eq.
    destruct (normalizePhysicalPath p) as [l|]; [|done]. cbv zeta.
    destruct (_ >? _).
    { intros [= <- <-]. right. split; [done|]. eexists.
      split; [apply is_TooLong | done]. }
    destruct (search _ devtree) as [|v| |]; try done.
    + intros [= <- <-]. right. split; [done|]. eexists.
      split; [apply is_NotFound | done].
    + rewrite afterTraverse_found. destruct (_ <? _)%nat.
      { intros [= <- <-]. right. split; [done|]. eexists.
        split; [apply is_SizeMismatch | done]. }
      intros Hd.
      apply decodePhysBinaryPath_cases in Hd
        as [(ep & -> & ->)|(-> & b0 & _ & _ & ->)].
      * left. by exists ep.
      * right. split; [done|]. eexists.
        split; [apply is_CountOverflow | done].
    + intros [= <- <-]. right. split; [done|]. eexists.
      split; [apply is_AttributeMissing | done].
  - intros devtree p σ σ1 σ2 ret_ Hi Ht.
    unfold getEntityPathFromDevTree, bind. rewrite Hi, Ht.
    split; intros ->; reflexivity.
Qed.

Lemma failures_return_absent_witness :
  getEntityPathFromDevTree (P := Sample.platform)
    (Sample.devtree Sample.platform) "sys-0/node-7"
    (Sample.boot Sample.platform)
  = Returns None
      (add_log diag_NotFound
         (set_physStringPath (CString.strncpy "physical:sys-0/node-7" 64)
            (Sample.boot Sample.platform))) ∧
  getEntityPathFromDevTree (P := Sample.platform)
    (Sample.devtree Sample.platform) "sys-0/node-0/proc-2"
    (Sample.boot Sample.platform)
  = Returns None
      (add_log diag_AttributeMissing
         (set_physStringPath
            (CString.strncpy "physical:sys-0/node-0/proc-2" 64)
            (Sample.boot Sample.platform))) ∧
  ((∃ ep, Some Sample.ep_node0 = Some ep ∧
          guard_log_out (Sample.boot Sample.platform)
            = guard_log_out (Sample.boot Sample.platform)) ∨
   (Some Sample.ep_node0 = None ∧
    ∃ d, failure_diag d ∧
         guard_log_out (Sample.boot Sample.platform)
           = guard_log_out (Sample.boot Sample.platform) ++ [d])).
Proof.
  split; [|split].
  - apply (proj1 (proj2 (failures_return_absent (P := Sample.platform)))
             (Sample.devtree Sample.platform) "sys-0/node-7"
             (Sample.boot Sample.platform)
             (set_physStringPath
                (CString.strncpy "physical:sys-0/node-7" 64)
                (Sample.boot Sample.platform))
             _ 0); reflexivity.
  - apply (proj1 (proj2 (failures_return_absent (P := Sample.platform)))
             (Sample.devtree Sample.platform) "sys-0/node-0/proc-2"
             (Sample.boot Sample.platform)
             (set_physStringPath
                (CString.strncpy "physical:sys-0/node-0/proc-2" 64)
                (Sample.boot Sample.platform))
             _ requireAttrNotFound); reflexivity.
  - apply (proj1 (failures_return_absent (P := Sample.platform))
             (Sample.devtree Sample.platform) "sys-0/node-0"
             (Sample.boot Sample.platform)
             (set_physBinaryPath (Sample.bin_node0 ++ replicate 16 x00)
                (set_physStringPath
                   (CString.strncpy "physical:sys-0/node-0" 64)
                   (Sample.boot Sample.platform)))
             (Some Sample.ep_node0)).
    reflexivity.
Defined.

(** C2.  With a 64-byte [g_physStringPath], a path of 55 letters
    becomes a string of 64 characters, which needs 65 bytes with its
    terminator.  Line 140 compares 63 with 64 and lets it pass: all 64
    cells are filled, no terminator is left in the array, and the
    traversal is run. *)
Theorem path_as_long_as_buffer_passes_length_check :
  normalizePhysicalPath Sample.path55 = Some ("physical:" +:+ Sample.path55) ∧
  String.length ("physical:" +:+ Sample.path55) = 64%nat ∧
  installPhysStringPath (P := Sample.platform) Sample.path55
    (Sample.boot Sample.platform)
  = Returns true
      (set_physStringPath
         (list_ascii_of_string ("physical:" +:+ Sample.path55))
         (Sample.boot Sample.platform)) ∧
  (Char.NUL ∉ list_ascii_of_string ("physical:" +:+ Sample.path55)) ∧
  getEntityPathFromDevTree (P := Sample.platform)
    (Sample.devtree Sample.platform) Sample.path55
    (Sample.boot Sample.platform)
  = Returns None
      (add_log diag_NotFound
         (set_physStringPath
            (list_ascii_of_string ("physical:" +:+ Sample.path55))
            (Sample.boot Sample.platform))).
Proof.
  split; [reflexivity|]. split; [reflexivity|]. split; [reflexivity|].
  split; [|reflexivity].
  apply (bool_decide_unpack _). vm_compute. reflexivity.
Qed.

(* ================================================================== *)
(** * The normalisation of the path *)
(* ================================================================== *)

(** C3.  The path "sys-0/physical:x" does not begin with the scheme,
    and yet line 135 finds the scheme in it (at position 6) and the
    path is left without the scheme in front. *)
Theorem scheme_inside_path_blocks_prefix :
  ¬ begins_with "physical:" "sys-0/physical:x" ∧
  StdString.find "physical:" 0 9 "sys-0/physical:x" = Some 6%nat ∧
  normalizePhysicalPath "sys-0/physical:x" = Some "sys-0/physical:x".
Proof. split; [|split]; [discriminate | reflexivity | reflexivity]. Qed.

(** C6.  The three forms of the path have one normal form. *)
Theorem three_forms_one_normal_form :
  normalizePhysicalPath "sys-0/node-0" = Some "physical:sys-0/node-0" ∧
  normalizePhysicalPath "/sys-0/node-0" = Some "physical:sys-0/node-0" ∧
  normalizePhysicalPath "physical:sys-0/node-0"
    = Some "physical:sys-0/node-0".
Proof. repeat split. Qed.

(** C7.  The path "//physical:a" passes the length check and is
    normalised to "/physical:a": one separator is removed and the
    scheme, found inside, is not put in front.  Normalising that again
    removes the other separator, so the second result is not the
    first. *)
Theorem double_separator_breaks_idempotence :
  normalizePhysicalPath "//physical:a" = Some "/physical:a" ∧
  normalizePhysicalPath "/physical:a" = Some "physical:a" ∧
  (normalizePhysicalPath "//physical:a" ≫= normalizePhysicalPath)
    ≠ normalizePhysicalPath "//physical:a" ∧
  installPhysStringPath (P := Sample.platform) "//physical:a"
    (Sample.boot Sample.platform)
  = Returns true
      (set_physStringPath (CString.strncpy "/physical:a" 64)
         (Sample.boot Sample.platform)).
Proof. repeat split. discriminate. Qed.

(** C10.  On the empty path the comparison of line 126 does not raise
    and does not find a separator, the scheme is put in front, and the
    result is "physical:".  The call then goes on exactly as for the
    path "physical:": when the array has room for it, the string is
    put in [g_physStringPath] and the traversal is run. *)
Theorem empty_path_normalizes_to_scheme {P : Platform} :
  StdString.compare 0 1 "/" EmptyString = Some Lt ∧
  normalizePhysicalPath EmptyString = Some "physical:" ∧
  (∀ (devtree : list pdbg_target) (σ : Globals),
     getEntityPathFromDevTree devtree EmptyString σ
     = getEntityPathFromDevTree devtree "physical:" σ) ∧
  (∀ (devtree : list pdbg_target) (σ : Globals),
     (8 ≤ sizeof_physStringPath)%nat →
     getEntityPathFromDevTree devtree EmptyString σ
     = (ret_ <- pdbg_traverse devtree pdbgCallbackToGetPhysicaBinaryPath;;
        afterTraverse ret_)
         (set_physStringPath
            (CString.strncpy "physical:" sizeof_physStringPath) σ)).
Proof.
  split; [reflexivity|]. split; [reflexivity|]. split; [reflexivity|].
  intros devtree σ Hcap.
  unfold getEntityPathFromDevTree. unfold bind at 1.
  rewrite (length_check_threshold EmptyString "physical:" σ eq_refl)
    by (vm_compute; reflexivity).
  destruct (decide _) as [Hge|_]; [simpl in Hge; lia|]. reflexivity.
Qed.

Lemma empty_path_normalizes_to_scheme_witness :
  (8 ≤ sizeof_physStringPath (Platform := Sample.platform))%nat ∧
  getEntityPathFromDevTree (P := Sample.platform)
    (Sample.devtree Sample.platform) EmptyString
    (Sample.boot Sample.platform)
  = (ret_ <- pdbg_traverse (Sample.devtree Sample.platform)
               (pdbgCallbackToGetPhysicaBinaryPath (P := Sample.platform));;
     afterTraverse (P := Sample.platform) ret_)
      (set_physStringPath (CString.strncpy "physical:" 64)
         (Sample.boot Sample.platform)).
Proof.
  split; [simpl; lia|].
  apply (proj2 (proj2 (proj2
           (empty_path_normalizes_to_scheme (P := Sample.platform))))
           (Sample.devtree Sample.platform)
           (Sample.boot Sample.platform)).
  simpl. lia.
Defined.

(* ================================================================== *)
(** * Two calls and the file-scope buffers *)
(* ================================================================== *)

(** C9.  Two calls with different paths of which one has made all its
    moves before the other makes its first do not see each other's
    search target or binary result: each comes back with what it would
    have given alone, whatever the earlier one left in
    [g_physStringPath] and [g_physBinaryPath]. *)
Theorem calls_in_turn_isolated {P : Platform}
    (devtree : list pdbg_target) (schedule : list bool)
    (p1 p2 : string) (σ τ : Globals) (r1 r2 : option EntityPath) :
  one_after_the_other schedule →
  p1 ≠ p2 →
  run_calls devtree schedule (AtEntry p1) (AtEntry p2) σ
    = Returns (Returned r1, Returned r2) τ →
  alone devtree p1 σ = Some r1 ∧ alone devtree p2 σ = Some r2.
Proof.
  intros (n & m & b & ->) _ Hrun. unfold alone. destruct b.
  - apply run_calls_in_turn_rev in Hrun as (σ1 & H2 & H1). split.
    + by rewrite (result_independent_of_buffers _ _ σ σ1), H1.
    + by rewrite H2.
  - apply run_calls_in_turn in Hrun as (σ1 & H1 & H2). split.
    + by rewrite H1.
    + by rewrite (result_independent_of_buffers _ _ σ σ1), H2.
Qed.

Lemma calls_in_turn_isolated_witness :
  alone (P := Sample.platform) (Sample.devtree Sample.platform)
    "sys-0/node-0" (Sample.boot Sample.platform)
  = Some (Some Sample.ep_node0) ∧
  alone (P := Sample.platform) (Sample.devtree Sample.platform)
    "sys-0/node-0/proc-1" (Sample.boot Sample.platform)
  = Some (Some Sample.ep_proc1).
Proof.
  apply (calls_in_turn_isolated (P := Sample.platform)
           (Sample.devtree Sample.platform)
           [false; false; false; true; true; true]
           "sys-0/node-0" "sys-0/node-0/proc-1"
           (Sample.boot Sample.platform)
           (set_physBinaryPath (Sample.bin_proc1 ++ replicate 14 x00)
              (set_physStringPath
                 (CString.strncpy "physical:sys-0/node-0/proc-1" 64)
                 (Sample.boot Sample.platform)))).
  - exists 3%nat, 3%nat, false. reflexivity.
  - discriminate.
  - reflexivity.
Defined.

(** The same two calls with their moves interleaved: the second call
    writes its path to [g_physStringPath] after the first has written
    its own and before the first runs the traversal.  The first call,
    asked for "sys-0/node-0", comes back with the entity path of
    "sys-0/node-0/proc-1". *)
Lemma overlapping_calls_not_isolated :
  ¬ calls_isolated (P := Sample.platform).
Proof.
  intros Hiso.
  destruct (Hiso (Sample.devtree Sample.platform)
              [false; true; false; false; true; true]
              "sys-0/node-0" "sys-0/node-0/proc-1"
              (Sample.boot Sample.platform)
              (set_physBinaryPath (Sample.bin_proc1 ++ replicate 14 x00)
                 (set_physStringPath
                    (CString.strncpy "physical:sys-0/node-0/proc-1" 64)
                    (Sample.boot Sample.platform)))
              (Some Sample.ep_proc1) (Some Sample.ep_proc1))
    as [H1 _]; [discriminate | reflexivity |].
  vm_compute in H1. discriminate H1.
Qed.

(* ================================================================== *)
(** * Further facts on the comparison, the search and the loop *)
(* ================================================================== *)

Section MoreFacts.
Context {P : Platform}.

Lemma code_inj (x y : ascii) : Char.code x = Char.code y → x = y.
Proof.
  unfold Char.code. intros E. apply N2Z.inj in E.
  apply (f_equal ascii_of_N) in E. by rewrite !ascii_N_embedding in E.
Qed.

(** [strcmp] against a terminated array gives 0 exactly for the arrays
    that begin with the same characters and a terminator. *)
Lemma strcmp_zero_iff (x r b : list ascii) :
  Char.NUL ∉ x →
  CString.strcmp (x ++ Char.NUL :: r) b = Some 0
  ↔ ∃ r', b = x ++ Char.NUL :: r'.
Proof.
  revert b. induction x as [|c x IH]; intros b Hnul.
  - destruct b as [|y b]; cbn [app CString.strcmp].
    { split; [done | by intros [r' ?]]. }
    destruct (decide (Char.NUL = y)) as [<-|Hy].
    + destruct (decide (Char.NUL = Char.NUL)); [|done].
      split; [eauto | done].
    + split.
      * intros [= E]. exfalso. apply Hy, code_inj. lia.
      * intros [r' [= ? _]]. done.
  - apply not_elem_of_cons in Hnul as [Hc Hx].
    destruct b as [|y b]; cbn [app CString.strcmp].
    { split; [done | by intros [r' ?]]. }
    destruct (decide (c = y)) as [<-|Hy].
    + destruct (decide (c = Char.NUL)); [done|].
      rewrite (IH b Hx). split.
      * intros [r' ->]. eauto.
      * intros [r' [= ->]]. eauto.
    + split.
      * intros [= E]. exfalso. apply Hy, code_inj. lia.
      * intros [r' [= ? _]]. done.
Qed.

(** The length check lets a path through that fits with its terminator. *)
Lemma length_check_passes_short (l : string) :
  (9 ≤ String.length l)%nat →
  (String.length l < sizeof_physStringPath)%nat →
  (size_t_sub (Z.of_nat (String.length l)) 1
     >? Z.of_nat sizeof_physStringPath) = false.
Proof.
  intros H9 Hlt. destruct (_ >? _) eqn:E; [|done]. apply Z.gtb_gt in E.
  unfold size_t_sub in E.
  pose proof (Z.mod_le (Z.of_nat (String.length l) - 1) (2 ^ 64)). lia.
Qed.

(** A target that does not carry the path is passed over, when the
    array holding the path is terminated. *)
Lemma look_at_unnamed (x r : list ascii) (u : pdbg_target) :
  length (x ++ Char.NUL :: r) = sizeof_physStringPath →
  ¬ names_path (x ++ Char.NUL :: r) u →
  look_at (x ++ Char.NUL :: r) u = NoMatch.
Proof.
  intros Hlen Hno. destruct (look_at _ u) as [|v| |] eqn:E; [done| | |].
  - by apply look_at_Match in E as (? & _).
  - by apply look_at_MatchWithoutBinary in E as (? & _).
  - by apply look_at_terminated in E.
Qed.

(** A target that carries the path ends the search, with its binary
    attribute or without. *)
Lemma look_at_named (s : list ascii) (t : pdbg_target) :
  names_path s t →
  look_at s t =
  match DT_GET_PROP (ATTR_PHYS_BIN_PATH t) sizeof_physBinaryPath with
  | Some v => Match v
  | None => MatchWithoutBinary
  end.
Proof.
  intros (a & Ha & Hlen & Hcmp). unfold look_at.
  unfold DT_GET_PROP at 1. rewrite Ha. cbn [mbind option_bind].
  destruct (decide _); [|done]. by rewrite Hcmp.
Qed.

Lemma search_skip (s : list ascii) (pre rest : list pdbg_target) :
  (∀ u, u ∈ pre → look_at s u = NoMatch) →
  search s (pre ++ rest) = search s rest.
Proof.
  induction pre as [|u pre IH]; intros Hpre; [done|].
  cbn [app search]. rewrite (Hpre u) by apply list_elem_of_here.
  apply IH. intros u' Hu'. apply Hpre. by apply list_elem_of_further.
Qed.

(** The loop reads the raw bytes below index [j + 2n] and no others. *)
Lemma copyPathElements_ext (n i j : nat) (raw raw' : list byte)
      (ep : EntityPath) :
  (∀ m, (m < j + 2 * n)%nat → raw !! m = raw' !! m) →
  copyPathElements n i j raw ep = copyPathElements n i j raw' ep.
Proof.
  revert i j ep. induction n as [|n IH]; intros i j ep Hsame; [done|].
  cbn [copyPathElements].
  rewrite <- (Hsame j) by lia. rewrite <- (Hsame (j + 1)%nat) by lia.
  destruct (raw !! j) as [t|]; [|done]. cbn [mbind option_bind].
  destruct (raw !! (j + 1)%nat) as [ins|]; [|done]. cbn [mbind option_bind].
  destruct (decide _); [|done].
  apply IH. intros m Hm. apply Hsame. unfold sizeof_PathElement in Hm. lia.
Qed.

(** The loop leaves the raw array when the array is too short for the
    pairs it is to read. *)
Lemma copyPathElements_short (n i : nat) (raw : list byte)
      (ep : EntityPath) :
  (0 < n)%nat → (length raw ≤ 2 * (i + n))%nat →
  copyPathElements n i (1 + i * 2) raw ep = None.
Proof.
  intros Hn Hlen.
  destruct (copyPathElements n i (1 + i * 2) raw ep) as [ep'|] eqn:E;
    [|done].
  apply copyPathElements_Some in E as (_ & _ & Hin & _).
  destruct (Hin (i + n - 1)%nat) as (t & ins & _ & Hins & _); [lia|].
  apply lookup_lt_Some in Hins. lia.
Qed.

(** What lines 197-217 return, in full: the cells from the count on
    are those of the freshly declared [entityPath]. *)
Lemma decodePhysBinaryPath_rest (σ τ : Globals) (ep : EntityPath) :
  decodePhysBinaryPath σ = Returns (Some ep) τ →
  ∀ i : nat,
    Z.land (byteZ (type_size ep)) 0x0F ≤ Z.of_nat i →
    pathElements ep !! i = pathElements EntityPath_init !! i.
Proof.
  unfold decodePhysBinaryPath, bind, gets, or_undefined.
  destruct (g_physBinaryPath σ !! 0%nat) as [b0|] eqn:E0; [|done].
  cbv zeta. cbn [type_size].
  destruct (_ >? _) eqn:Egt; [done|].
  destruct (copyPathElements _ _ _ _ _) as [ep'|] eqn:Ecp; [|done].
  intros [= -> ->].
  apply (copyPathElements_Some _ 0) in Ecp as (Hts & _ & _ & Hout).
  cbn [type_size pathElements] in *. rewrite Hts.
  intros i Hi. apply Hout. pose proof (low_nibble b0). lia.
Qed.

(** No exception leaves lines 169-217. *)
Lemma afterTraverse_no_throw (ret_ : Z) (σ τ : Globals) :
  afterTraverse ret_ σ ≠ Throws τ.
Proof.
  unfold afterTraverse, decodePhysBinaryPath, bind, gets, or_undefined,
    guard_log, modify, ret.
  destruct (ret_ =? 0); [done|]. destruct (ret_ =? _); [done|].
  destruct (_ <? _)%nat; [done|].
  destruct (g_physBinaryPath σ !! 0%nat); [|done]. cbv zeta.
  destruct (_ >? _); [done|]. by destruct (copyPathElements _ _ _ _ _).
Qed.

End MoreFacts.

Lemma transform_length (f : ascii → ascii) (s : string) :
  String.length (StdString.transform f s) = String.length s.
Proof. induction s as [|c s IH]; simpl; [done | by rewrite IH]. Qed.

Lemma strip_separator_length (s : string) :
  (String.length (strip_separator s) ≤ String.length s)%nat.
Proof.
  destruct s as [|c s]; simpl; [done|]. destruct (decide _); simpl; lia.
Qed.

(** Lower-casing does not bring a separator to the front. *)
Lemma strip_lower_no_separator (s : string) :
  ¬ begins_with "/" s →
  strip_separator (StdString.transform Char.tolower s)
  = StdString.transform Char.tolower s.
Proof.
  intros Hsep. apply strip_separator_fixed. intros Hb. apply Hsep.
  unfold begins_with, occurs_at in *. destruct s as [|c s]; [done|].
  simpl in Hb |- *. rewrite substring_none in *.
  injection Hb as Hc. apply (proj1 (tolower_separator c)) in Hc.
  by rewrite Hc.
Qed.

(** The normalisation looks at the path through its lower-case form. *)
Lemma normalize_lower (p : string) :
  normalizePhysicalPath (StdString.transform Char.tolower p)
  = normalizePhysicalPath p.
Proof. by rewrite !normalizePhysicalPath_eq, transform_idem. Qed.

Lemma normalize_after_separator (p : string) :
  ¬ begins_with "/" p →
  normalizePhysicalPath (String "/" p) = normalizePhysicalPath p.
Proof.
  intros Hsep. rewrite !normalizePhysicalPath_eq. cbv zeta.
  rewrite (strip_lower_no_separator p Hsep).
  cbn [StdString.transform strip_separator].
  change (Char.tolower "/") with "/"%char.
  by destruct (decide ("/"%char = "/"%char)).
Qed.

(** A normalised path begins with a separator only when the caller's
    path began with two. *)
Lemma normalized_separator_front (p y : string) :
  normalizePhysicalPath p = Some y →
  begins_with "/" y → begins_with "//" p.
Proof.
  rewrite normalizePhysicalPath_eq. cbv zeta.
  unfold begins_with, occurs_at.
  destruct (String.index 0 "physical:" _); intros [= <-]; [|done].
  destruct p as [|c1 p]; [done|].
  cbn [StdString.transform strip_separator].
  destruct (decide (Char.tolower c1 = "/"%char)) as [H1|H1].
  - apply tolower_separator in H1 as ->.
    destruct p as [|c2 p]; [done|]. cbn [StdString.transform].
    simpl. rewrite !substring_none. intros [= H2].
    apply tolower_separator in H2 as ->. done.
  - simpl. rewrite substring_none. by intros [= ?].
Qed.

(** [strncpy] stops at the first NUL of its source. *)
Lemma strncpy_cut (a b : string) (n : nat) :
  CString.strncpy (a +:+ String Char.NUL b) n = CString.strncpy a n.
Proof.
  revert a. induction n as [|n IH]; intros a; [done|].
  destruct a as [|c a]; simpl.
  - by destruct (decide (Char.NUL = Char.NUL)).
  - destruct (decide (c = Char.NUL)); [done|]. by rewrite IH.
Qed.

(* ================================================================== *)
(** * Further properties: the path the caller gives *)
(* ================================================================== *)

(** X1.  No exception leaves [getEntityPathFromDevTree]: the
    [std::string] calls of lines 126-137 are all made at position 0,
    which is never past the end. *)
Theorem call_never_raises {P : Platform} (devtree : list pdbg_target)
    (p : string) (σ τ : Globals) :
  getEntityPathFromDevTree devtree p σ ≠ Throws τ.
Proof.
  rewrite getEntityPathFromDevTree_eq.
  destruct (normalizePhysicalPath_total p) as [l ->]. cbv zeta.
  destruct (_ >? _); [done|].
  destruct (search _ devtree); try done. apply afterTraverse_no_throw.
Qed.

(** X2.  Whatever the caller gives, the path that reaches line 140 is
    in lower case, holds the scheme, and has from 9 characters up to 9
    more than the caller's; so [length() - 1] does not wrap. *)
Theorem normalized_path_shape (p : string) :
  ∃ y,
    normalizePhysicalPath p = Some y ∧
    StdString.transform Char.tolower y = y ∧
    (∃ m, occurs_at "physical:" m y) ∧
    (9 ≤ String.length y)%nat ∧
    (String.length y ≤ String.length p + 9)%nat ∧
    (Z.of_nat (String.length y) < 2 ^ 64 →
     size_t_sub (Z.of_nat (String.length y)) 1
     = Z.of_nat (String.length y) - 1).
Proof.
  destruct (normalizePhysicalPath_total p) as [y Hy]. exists y.
  pose proof (normalized_length _ _ Hy) as H9.
  split; [done|]. split; [by eapply normalized_lower|]. split.
  { destruct (normalized_has_scheme _ _ Hy) as [m Hm]. exists m.
    by apply String.index_correct1 in Hm. }
  split; [done|]. split.
  - revert Hy. rewrite normalizePhysicalPath_eq. cbv zeta.
    pose proof (strip_separator_length
                  (StdString.transform Char.tolower p)) as Hs.
    rewrite transform_length in Hs.
    destruct (String.index 0 "physical:" _); intros [= <-]; [lia|].
    rewrite string_length_app. simpl. lia.
  - intros Hlt. apply size_t_sub_small. lia.
Qed.

(** X3.  The case of the letters in the caller's path does not matter:
    the call on a path and the call on its lower-case form are the
    same. *)
Theorem path_case_is_ignored {P : Platform} (devtree : list pdbg_target)
    (p : string) (σ : Globals) :
  getEntityPathFromDevTree devtree (StdString.transform Char.tolower p) σ
  = getEntityPathFromDevTree devtree p σ.
Proof. by rewrite !getEntityPathFromDevTree_eq, normalize_lower. Qed.

(** X4.  One separator in front of the path does not matter: for a
    path that does not begin with a separator, the call with a
    separator put in front is the call on the path itself. *)
Theorem leading_separator_is_optional {P : Platform}
    (devtree : list pdbg_target) (p : string) (σ : Globals) :
  ¬ begins_with "/" p →
  getEntityPathFromDevTree devtree (String "/" p) σ
  = getEntityPathFromDevTree devtree p σ.
Proof.
  intros Hsep.
  by rewrite !getEntityPathFromDevTree_eq, normalize_after_separator.
Qed.

Lemma leading_separator_is_optional_witness :
  getEntityPathFromDevTree (P := Sample.platform)
    (Sample.devtree Sample.platform) (String "/" "Sys-0/Node-0")
    (Sample.boot Sample.platform)
  = getEntityPathFromDevTree (P := Sample.platform)
      (Sample.devtree Sample.platform) "Sys-0/Node-0"
      (Sample.boot Sample.platform).
Proof.
  apply (leading_separator_is_optional (P := Sample.platform)).
  discriminate.
Defined.

(** X5.  Line 135 puts the scheme in front exactly when the nine
    characters of the scheme occur at no position of the lower-cased,
    stripped path; when they occur, wherever that is, the path is left
    as it is. *)
Theorem scheme_prepended_iff_absent (p : string) :
  let l := strip_separator (StdString.transform Char.tolower p) in
  (normalizePhysicalPath p = Some ("physical:" +:+ l)
   ↔ ∀ m, ¬ occurs_at "physical:" m l) ∧
  (∀ m, occurs_at "physical:" m l → normalizePhysicalPath p = Some l).
Proof.
  cbv zeta. split.
  - apply normalize_prepends_iff_absent.
  - intros m. apply normalize_keeps_when_present.
Qed.

(** X6.  Normalising a normalised path does nothing but remove a
    separator from its front; for a caller's path that does not begin
    with two separators there is none, and the normalised path is
    normalised to itself. *)
Theorem renormalizing_strips_one_separator (p y : string) :
  normalizePhysicalPath p = Some y →
  normalizePhysicalPath y = Some (strip_separator y) ∧
  (¬ begins_with "//" p → normalizePhysicalPath y = Some y).
Proof.
  intros Hy. split; [by eapply normalize_twice|].
  intros Hp. apply (normalize_idempotent_iff _ _ Hy).
  intros Hb. apply Hp. by eapply normalized_separator_front.
Qed.

Lemma renormalizing_strips_one_separator_witness :
  normalizePhysicalPath "physical:sys-0"
    = Some (strip_separator "physical:sys-0") ∧
  (¬ begins_with "//" "/Sys-0" →
   normalizePhysicalPath "physical:sys-0" = Some "physical:sys-0").
Proof.
  apply (renormalizing_strips_one_separator "/Sys-0" "physical:sys-0").
  reflexivity.
Defined.

(** X7.  A path given bare, with a separator in front, or with the
    scheme in front is normalised to the same string, the scheme
    followed by the path in lower case, provided the path does not
    begin with a separator and does not hold the scheme. *)
Theorem path_forms_agree (s : string) :
  ¬ begins_with "/" s →
  (∀ m, ¬ occurs_at "physical:" m (StdString.transform Char.tolower s)) →
  normalizePhysicalPath s
    = Some ("physical:" +:+ StdString.transform Char.tolower s) ∧
  normalizePhysicalPath (String "/" s)
    = Some ("physical:" +:+ StdString.transform Char.tolower s) ∧
  normalizePhysicalPath ("physical:" +:+ s)
    = Some ("physical:" +:+ StdString.transform Char.tolower s).
Proof. apply three_forms_agree. Qed.

Lemma path_forms_agree_witness :
  normalizePhysicalPath "Sys-0/Node-0/Proc-1"
    = Some ("physical:" +:+
            StdString.transform Char.tolower "Sys-0/Node-0/Proc-1") ∧
  normalizePhysicalPath (String "/" "Sys-0/Node-0/Proc-1")
    = Some ("physical:" +:+
            StdString.transform Char.tolower "Sys-0/Node-0/Proc-1") ∧
  normalizePhysicalPath ("physical:" +:+ "Sys-0/Node-0/Proc-1")
    = Some ("physical:" +:+
            StdString.transform Char.tolower "Sys-0/Node-0/Proc-1").
Proof.
  apply (path_forms_agree "Sys-0/Node-0/Proc-1"); [discriminate|].
  intros m.
  apply (String.index_correct3 0 m "physical:"
           (StdString.transform Char.tolower "Sys-0/Node-0/Proc-1")
           eq_refl); [done | lia].
Defined.

(* ================================================================== *)
(** * Further properties: the length check and [g_physStringPath] *)
(* ================================================================== *)

(** X8.  The check of line 140 turns a path away exactly when its
    normal form has at least two characters more than
    [g_physStringPath] has cells.  The call then returns no path for
    every device tree, with the size of the array and [length() - 1]
    logged and both buffers as they were; a shorter normal form is
    copied into the array. *)
Theorem length_check_turns_away_from_two_over {P : Platform}
    (p l : string) (σ : Globals) :
  normalizePhysicalPath p = Some l →
  Z.of_nat (String.length l) < 2 ^ 64 →
  ((sizeof_physStringPath + 2 ≤ String.length l)%nat →
   ∀ devtree,
     getEntityPathFromDevTree devtree p σ =
     Returns None
       (add_log (diag_TooLong (Z.of_nat sizeof_physStringPath)
                   (Z.of_nat (String.length l) - 1)) σ)) ∧
  ((String.length l < sizeof_physStringPath + 2)%nat →
   installPhysStringPath p σ =
   Returns true
     (set_physStringPath (CString.strncpy l sizeof_physStringPath) σ)).
Proof.
  intros Hl Hlen. split.
  - intros Hge devtree. by apply too_long_no_traversal.
  - intros Hlt. rewrite (length_check_threshold _ _ _ Hl Hlen).
    destruct (decide _); [lia | done].
Qed.

Lemma length_check_turns_away_from_two_over_witness :
  (∀ devtree,
     getEntityPathFromDevTree (P := Sample.platform) devtree Sample.path57
       (Sample.boot Sample.platform) =
     Returns None
       (add_log (diag_TooLong 64 65) (Sample.boot Sample.platform))) ∧
  installPhysStringPath (P := Sample.platform) "sys-0"
    (Sample.boot Sample.platform) =
  Returns true
    (set_physStringPath (CString.strncpy "physical:sys-0" 64)
       (Sample.boot Sample.platform)).
Proof.
  split.
  - apply (proj1 (length_check_turns_away_from_two_over
                    (P := Sample.platform)
                    Sample.path57 ("physical:" +:+ Sample.path57)
                    (Sample.boot Sample.platform) eq_refl eq_refl)).
    simpl. lia.
  - apply (proj2 (length_check_turns_away_from_two_over
                    (P := Sample.platform)
                    "sys-0" "physical:sys-0"
                    (Sample.boot Sample.platform) eq_refl eq_refl)).
    simpl. lia.
Defined.

(** X9.  A path without NUL whose normal form has as many characters
    as [g_physStringPath] has cells, or one more, passes the check of
    line 140; [strncpy] then fills every cell and the array holds no
    terminator. *)
Theorem path_filling_array_is_left_unterminated {P : Platform}
    (p l : string) (σ : Globals) :
  normalizePhysicalPath p = Some l →
  Char.NUL ∉ list_ascii_of_string l →
  Z.of_nat (String.length l) < 2 ^ 64 →
  (sizeof_physStringPath ≤ String.length l)%nat →
  (String.length l ≤ sizeof_physStringPath + 1)%nat →
  ∃ σ1, installPhysStringPath p σ = Returns true σ1 ∧
        length (g_physStringPath σ1) = sizeof_physStringPath ∧
        Char.NUL ∉ g_physStringPath σ1.
Proof. apply length_check_lets_unterminated_pass. Qed.

Lemma path_filling_array_is_left_unterminated_witness :
  ∃ σ1,
    installPhysStringPath (P := Sample.platform) Sample.path55
      (Sample.boot Sample.platform) = Returns true σ1 ∧
    length (g_physStringPath σ1) = 64%nat ∧
    Char.NUL ∉ g_physStringPath σ1.
Proof.
  apply (path_filling_array_is_left_unterminated (P := Sample.platform)
           Sample.path55 ("physical:" +:+ Sample.path55)
           (Sample.boot Sample.platform)).
  - reflexivity.
  - apply (bool_decide_unpack _). vm_compute. reflexivity.
  - vm_compute. reflexivity.
  - simpl. lia.
  - simpl. lia.
Defined.

(** X10.  A path without NUL whose normal form is shorter than
    [g_physStringPath] is stored as its characters followed by NULs up
    to the end of the array, whatever the array held before;
    [g_physBinaryPath] and the log are not touched. *)
Theorem accepted_path_is_stored_with_padding {P : Platform}
    (p l : string) (σ : Globals) :
  normalizePhysicalPath p = Some l →
  Char.NUL ∉ list_ascii_of_string l →
  (String.length l < sizeof_physStringPath)%nat →
  installPhysStringPath p σ =
  Returns true
    (set_physStringPath
       (list_ascii_of_string l
          ++ Char.NUL
          :: replicate (sizeof_physStringPath - String.length l - 1)
               Char.NUL) σ).
Proof.
  intros Hl Hnul Hlt. rewrite installPhysStringPath_eq, Hl. cbv zeta.
  rewrite length_check_passes_short by (done || by eapply normalized_length).
  by rewrite strncpy_padded.
Qed.

Lemma accepted_path_is_stored_with_padding_witness :
  installPhysStringPath (P := Sample.platform) "/Sys-0"
    (set_physStringPath (list_ascii_of_string Sample.path57)
       (Sample.boot Sample.platform)) =
  Returns true
    (set_physStringPath
       (list_ascii_of_string "physical:sys-0"
          ++ Char.NUL :: replicate (64 - 14 - 1) Char.NUL)
       (set_physStringPath (list_ascii_of_string Sample.path57)
          (Sample.boot Sample.platform))).
Proof.
  apply (accepted_path_is_stored_with_padding (P := Sample.platform)
           "/Sys-0" "physical:sys-0").
  - reflexivity.
  - apply (bool_decide_unpack _). vm_compute. reflexivity.
  - simpl. lia.
Defined.

(** X11.  When the normal form of the path has a NUL inside, the check
    of line 140 counts all its characters, and [strncpy] copies the
    part before the NUL only: that part is what the traversal looks
    for. *)
Theorem embedded_NUL_cuts_the_path {P : Platform}
    (p a b : string) (σ : Globals) :
  normalizePhysicalPath p = Some (a +:+ String Char.NUL b) →
  Z.of_nat (String.length (a +:+ String Char.NUL b)) < 2 ^ 64 →
  (String.length (a +:+ String Char.NUL b)
     < sizeof_physStringPath + 2)%nat →
  installPhysStringPath p σ =
  Returns true
    (set_physStringPath (CString.strncpy a sizeof_physStringPath) σ).
Proof.
  intros Hl Hlen Hlt. rewrite (length_check_threshold _ _ _ Hl Hlen).
  destruct (decide _); [lia|]. by rewrite strncpy_cut.
Qed.

Lemma embedded_NUL_cuts_the_path_witness :
  installPhysStringPath (P := Sample.platform)
    ("Sys-0" +:+ String Char.NUL "/node-0")
    (Sample.boot Sample.platform) =
  Returns true
    (set_physStringPath (CString.strncpy "physical:sys-0" 64)
       (Sample.boot Sample.platform)).
Proof.
  apply (embedded_NUL_cuts_the_path (P := Sample.platform)
           ("Sys-0" +:+ String Char.NUL "/node-0")
           "physical:sys-0" "/node-0").
  - reflexivity.
  - vm_compute. reflexivity.
  - simpl. lia.
Defined.

(* ================================================================== *)
(** * Further properties: the callback and the traversal *)
(* ================================================================== *)

(** X12.  Whenever the callback returns, it returns one of the three
    codes of lines 24-26 and has left [g_physStringPath] and the log
    alone.  With [continueTgtTraversal] nothing at all has changed;
    with [requireAttrFound] [g_physBinaryPath] holds the binary
    attribute of the target; with [requireAttrNotFound] it holds
    zeros, not what an earlier call left. *)
Theorem callback_outcomes {P : Platform} (t : pdbg_target)
    (σ τ : Globals) (rc : Z) :
  pdbgCallbackToGetPhysicaBinaryPath t σ = Returns rc τ →
  g_physStringPath τ = g_physStringPath σ ∧
  guard_log_out τ = guard_log_out σ ∧
  ((rc = continueTgtTraversal ∧ τ = σ) ∨
   (rc = requireAttrFound ∧
    ∃ v, ATTR_PHYS_BIN_PATH t = Some v ∧
         length v = sizeof_physBinaryPath ∧ g_physBinaryPath τ = v) ∨
   (rc = requireAttrNotFound ∧
    g_physBinaryPath τ = replicate sizeof_physBinaryPath x00)).
Proof.
  rewrite callback_look_at.
  destruct (look_at _ t) as [|v| |] eqn:E; intros [= <- <-].
  - auto.
  - apply look_at_Match in E as (_ & Hv & Hlen).
    split; [done|]. split; [done|]. right. left. eauto.
  - split; [done|]. split; [done|]. right. right. done.
Qed.

Lemma callback_outcomes_witness :
  g_physStringPath
    (set_physBinaryPath (replicate 21 x00)
       (set_physBinaryPath (replicate 21 xff)
          (set_physStringPath
             (CString.strncpy "physical:sys-0/node-0/proc-2" 64)
             (Sample.boot Sample.platform))))
  = g_physStringPath
      (set_physBinaryPath (replicate 21 xff)
         (set_physStringPath
            (CString.strncpy "physical:sys-0/node-0/proc-2" 64)
            (Sample.boot Sample.platform))) ∧
  guard_log_out
    (set_physBinaryPath (replicate 21 x00)
       (set_physBinaryPath (replicate 21 xff)
          (set_physStringPath
             (CString.strncpy "physical:sys-0/node-0/proc-2" 64)
             (Sample.boot Sample.platform))))
  = guard_log_out
      (set_physBinaryPath (replicate 21 xff)
         (set_physStringPath
            (CString.strncpy "physical:sys-0/node-0/proc-2" 64)
            (Sample.boot Sample.platform))) ∧
  ((requireAttrNotFound = continueTgtTraversal ∧
    set_physBinaryPath (replicate 21 x00)
      (set_physBinaryPath (replicate 21 xff)
         (set_physStringPath
            (CString.strncpy "physical:sys-0/node-0/proc-2" 64)
            (Sample.boot Sample.platform)))
    = set_physBinaryPath (replicate 21 xff)
        (set_physStringPath
           (CString.strncpy "physical:sys-0/node-0/proc-2" 64)
           (Sample.boot Sample.platform))) ∨
   (requireAttrNotFound = requireAttrFound ∧
    ∃ v, (None : option (list byte)) = Some v ∧
         length v = 21%nat ∧ replicate 21 x00 = v) ∨
   (requireAttrNotFound = requireAttrNotFound ∧
    replicate 21 x00 = replicate 21 x00)).
Proof.
  apply (callback_outcomes (P := Sample.platform)
           {| ATTR_PHYS_DEV_PATH :=
                Some (CString.strncpy "physical:sys-0/node-0/proc-2" 64);
              ATTR_PHYS_BIN_PATH := None |}
           (set_physBinaryPath (replicate 21 xff)
              (set_physStringPath
                 (CString.strncpy "physical:sys-0/node-0/proc-2" 64)
                 (Sample.boot Sample.platform)))
           (set_physBinaryPath (replicate 21 x00)
              (set_physBinaryPath (replicate 21 xff)
                 (set_physStringPath
                    (CString.strncpy "physical:sys-0/node-0/proc-2" 64)
                    (Sample.boot Sample.platform))))
           requireAttrNotFound).
  reflexivity.
Defined.

(** X13.  With a terminated path in [g_physStringPath], the callback
    passes over a target exactly when the target's string attribute is
    not that path followed by a terminator: the comparison is exact
    and sensitive to case, and what follows the terminator in the
    attribute is not looked at. *)
Theorem callback_matches_exact_string {P : Platform} (t : pdbg_target)
    (a : list ascii) (l : string) (r : list ascii) (σ : Globals) :
  g_physStringPath σ = list_ascii_of_string l ++ Char.NUL :: r →
  length (g_physStringPath σ) = sizeof_physStringPath →
  Char.NUL ∉ list_ascii_of_string l →
  ATTR_PHYS_DEV_PATH t = Some a →
  length a = sizeof_physStringPath →
  pdbgCallbackToGetPhysicaBinaryPath t σ = Returns continueTgtTraversal σ
  ↔ ¬ reads_as l a.
Proof.
  intros Hs Hslen Hnul Ha Halen. rewrite callback_look_at.
  assert (Hnames : names_path (g_physStringPath σ) t ↔ reads_as l a).
  { unfold names_path, reads_as. rewrite Hs. split.
    - intros (a' & Ha' & _ & Hcmp).
      replace a' with a in * by congruence.
      by apply strcmp_zero_iff in Hcmp.
    - intros Hr. exists a. split; [done|]. split; [done|].
      by apply strcmp_zero_iff. }
  split.
  - intros Hcb Hr. apply Hnames in Hr.
    rewrite (look_at_named _ _ Hr) in Hcb.
    by destruct (DT_GET_PROP (ATTR_PHYS_BIN_PATH t) _).
  - intros Hr. rewrite Hs, look_at_unnamed; [done | by rewrite <- Hs |].
    rewrite <- Hs. by rewrite Hnames.
Qed.

Lemma callback_matches_exact_string_witness :
  pdbgCallbackToGetPhysicaBinaryPath (P := Sample.platform)
    (Sample.target Sample.platform "physical:sys-0/node-0"
       Sample.bin_node0)
    (set_physStringPath (CString.strncpy "physical:sys-0" 64)
       (Sample.boot Sample.platform))
  = Returns continueTgtTraversal
      (set_physStringPath (CString.strncpy "physical:sys-0" 64)
         (Sample.boot Sample.platform))
  ↔ ¬ reads_as "physical:sys-0"
        (CString.strncpy "physical:sys-0/node-0" 64).
Proof.
  apply (callback_matches_exact_string (P := Sample.platform)
           (Sample.target Sample.platform "physical:sys-0/node-0"
              Sample.bin_node0)
           (CString.strncpy "physical:sys-0/node-0" 64)
           "physical:sys-0" (replicate 49 Char.NUL)).
  - reflexivity.
  - reflexivity.
  - apply (bool_decide_unpack _). vm_compute. reflexivity.
  - reflexivity.
  - reflexivity.
Defined.

(** X14.  The first target that carries the path ends the traversal:
    when the targets met before it do not carry the path, the
    traversal returns [requireAttrFound] with the binary attribute of
    that target in [g_physBinaryPath], whatever targets come after it,
    also ones that carry the same path. *)
Theorem first_match_wins {P : Platform} (pre post : list pdbg_target)
    (t : pdbg_target) (v : list byte) (x r : list ascii) (σ : Globals) :
  g_physStringPath σ = x ++ Char.NUL :: r →
  length (g_physStringPath σ) = sizeof_physStringPath →
  (∀ u, u ∈ pre → ¬ names_path (g_physStringPath σ) u) →
  names_path (g_physStringPath σ) t →
  ATTR_PHYS_BIN_PATH t = Some v →
  length v = sizeof_physBinaryPath →
  pdbg_traverse (pre ++ t :: post) pdbgCallbackToGetPhysicaBinaryPath σ
  = Returns requireAttrFound (set_physBinaryPath v σ).
Proof.
  intros Hs Hslen Hpre Ht Hv Hvlen. rewrite pdbg_traverse_search.
  rewrite search_skip.
  - cbn [search]. rewrite (look_at_named _ _ Ht).
    unfold DT_GET_PROP. rewrite Hv. cbn [mbind option_bind].
    by destruct (decide _).
  - intros u Hu. rewrite Hs. apply look_at_unnamed; rewrite <- Hs; auto.
Qed.

Lemma first_match_wins_witness :
  pdbg_traverse
    ([Sample.target Sample.platform "physical:sys-0" [x21; x01; x00]]
       ++ Sample.target Sample.platform "physical:sys-0/node-0"
            Sample.bin_node0
       :: [Sample.target Sample.platform "physical:sys-0/node-0"
             Sample.bin_proc1])
    (pdbgCallbackToGetPhysicaBinaryPath (P := Sample.platform))
    (set_physStringPath (CString.strncpy "physical:sys-0/node-0" 64)
       (Sample.boot Sample.platform))
  = Returns requireAttrFound
      (set_physBinaryPath (Sample.bin_node0 ++ replicate 16 x00)
         (set_physStringPath (CString.strncpy "physical:sys-0/node-0" 64)
            (Sample.boot Sample.platform))).
Proof.
  apply (first_match_wins (P := Sample.platform) _ _ _ _
           (list_ascii_of_string "physical:sys-0/node-0")
           (replicate 42 Char.NUL)).
  - reflexivity.
  - reflexivity.
  - intros u Hu. apply list_elem_of_singleton in Hu as ->.
    intros (a & Ha & _ & Hcmp). injection Ha as <-.
    vm_compute in Hcmp. discriminate Hcmp.
  - eexists. split; [reflexivity|]. split; reflexivity.
  - reflexivity.
  - reflexivity.
Defined.

(* ================================================================== *)
(** * Further properties: the call as a whole *)
(* ================================================================== *)

(** The entries of the log tell the failures apart. *)
Lemma add_log_inj (d d' : LogEntry) (σ σ' : Globals) :
  guard_log_out σ' = guard_log_out σ →
  guard_log_out (add_log d σ') = guard_log_out σ ++ [d'] → d = d'.
Proof.
  intros E. cbn [guard_log_out add_log]. rewrite E. intros H.
  apply app_inv_head in H. by injection H.
Qed.

Lemma Returns_log {A} (a b : A) (σ τ : Globals) :
  Returns a σ = Returns b τ → guard_log_out σ = guard_log_out τ.
Proof. congruence. Qed.

(** X15.  For a path without NUL whose normal form fits in
    [g_physStringPath] with its terminator, the call ends with the
    "not found" diagnostic exactly when no target of the device tree
    carries the path; [g_physBinaryPath] is then as it was before the
    call. *)
Theorem not_found_iff_no_target_names_path {P : Platform}
    (devtree : list pdbg_target) (p l : string) (σ : Globals) :
  normalizePhysicalPath p = Some l →
  Char.NUL ∉ list_ascii_of_string l →
  (String.length l < sizeof_physStringPath)%nat →
  getEntityPathFromDevTree devtree p σ
  = Returns None
      (add_log diag_NotFound
         (set_physStringPath
            (CString.strncpy l sizeof_physStringPath) σ))
  ↔ ∀ t, t ∈ devtree →
         ¬ names_path (CString.strncpy l sizeof_physStringPath) t.
Proof.
  intros Hl Hnul Hlt. rewrite getEntityPathFromDevTree_eq, Hl. cbv zeta.
  rewrite length_check_passes_short by (done || by eapply normalized_length).
  set (s := CString.strncpy l sizeof_physStringPath).
  assert (Hs : s = list_ascii_of_string l
                   ++ Char.NUL
                   :: replicate (sizeof_physStringPath - String.length l - 1)
                        Char.NUL) by by apply strncpy_padded.
  assert (Hslen : length s = sizeof_physStringPath)
    by apply strncpy_length.
  destruct (search_first s devtree) as [[Hnone Hall]|[Hsome (t & Ht & Hlook)]].
  - rewrite Hnone. split; [|done]. intros _ u Hu.
    by apply look_at_NoMatch, Hall.
  - split.
    + intros Hcall. exfalso.
      destruct (search s devtree) as [|v| |]; [done| | |].
      * rewrite afterTraverse_found in Hcall.
        destruct (_ <? _)%nat.
        { apply Returns_log in Hcall.
          by apply (add_log_inj _ _ σ) in Hcall. }
        apply decodePhysBinaryPath_cases in Hcall
          as [(ep & ? & _)|(_ & b0 & _ & _ & Hcall)]; [done|].
        apply (f_equal guard_log_out) in Hcall. symmetry in Hcall.
        by apply (add_log_inj _ _ σ) in Hcall.
      * apply Returns_log in Hcall.
        by apply (add_log_inj _ _ σ) in Hcall.
      * done.
    + intros Hno. exfalso. apply (Hno t Ht).
      destruct (look_at s t) as [|v| |] eqn:E.
      * by rewrite <- Hlook in Hsome.
      * by apply look_at_Match in E as (? & _).
      * by apply look_at_MatchWithoutBinary in E as (? & _).
      * rewrite Hs in E. apply look_at_terminated in E; [done|].
        by rewrite <- Hs.
Qed.

Lemma not_found_iff_no_target_names_path_witness :
  getEntityPathFromDevTree (P := Sample.platform)
    (Sample.devtree Sample.platform) "sys-0/node-7"
    (Sample.boot Sample.platform)
  = Returns None
      (add_log diag_NotFound
         (set_physStringPath (CString.strncpy "physical:sys-0/node-7" 64)
            (Sample.boot Sample.platform)))
  ↔ ∀ t, t ∈ Sample.devtree Sample.platform →
         ¬ names_path (P := Sample.platform)
             (CString.strncpy "physical:sys-0/node-7" 64) t.
Proof.
  apply (not_found_iff_no_target_names_path (P := Sample.platform)
           (Sample.devtree Sample.platform)
           "sys-0/node-7" "physical:sys-0/node-7").
  - reflexivity.
  - apply (bool_decide_unpack _). vm_compute. reflexivity.
  - simpl. lia.
Defined.

(** X16.  A path without NUL that fits in [g_physStringPath] with its
    terminator is resolved when some target carries it and every
    target that carries it has a binary attribute with a count within
    [maxPathElements], on a platform whose binary attribute is no
    larger than [EntityPath] and holds [maxPathElements] pairs: the
    call returns a path, which mirrors the binary attribute of one of
    those targets. *)
Theorem present_path_is_resolved {P : Platform}
    (devtree : list pdbg_target) (p l : string) (σ : Globals) :
  normalizePhysicalPath p = Some l →
  Char.NUL ∉ list_ascii_of_string l →
  (String.length l < sizeof_physStringPath)%nat →
  (sizeof_physBinaryPath ≤ sizeof_EntityPath)%nat →
  (2 * maxPathElements < sizeof_physBinaryPath)%nat →
  (∃ t, t ∈ devtree ∧
        names_path (CString.strncpy l sizeof_physStringPath) t) →
  (∀ t, t ∈ devtree →
     names_path (CString.strncpy l sizeof_physStringPath) t →
     ∃ raw b0, ATTR_PHYS_BIN_PATH t = Some raw ∧
               length raw = sizeof_physBinaryPath ∧
               raw !! 0%nat = Some b0 ∧
               byteZ b0 mod 16 ≤ Z.of_nat maxPathElements) →
  ∃ t raw ep,
    t ∈ devtree ∧
    names_path (CString.strncpy l sizeof_physStringPath) t ∧
    ATTR_PHYS_BIN_PATH t = Some raw ∧
    getEntityPathFromDevTree devtree p σ
      = Returns (Some ep)
          (set_physBinaryPath raw
             (set_physStringPath
                (CString.strncpy l sizeof_physStringPath) σ)) ∧
    mirrors raw ep.
Proof. apply present_path_resolves. Qed.

Lemma present_path_is_resolved_witness :
  ∃ t raw ep,
    t ∈ Sample.devtree Sample.platform ∧
    names_path (P := Sample.platform)
      (CString.strncpy "physical:sys-0/node-0" 64) t ∧
    ATTR_PHYS_BIN_PATH t = Some raw ∧
    getEntityPathFromDevTree (P := Sample.platform)
      (Sample.devtree Sample.platform) "/Sys-0/Node-0"
      (Sample.boot Sample.platform)
      = Returns (Some ep)
          (set_physBinaryPath raw
             (set_physStringPath
                (CString.strncpy "physical:sys-0/node-0" 64)
                (Sample.boot Sample.platform))) ∧
    mirrors raw ep.
Proof.
  apply (present_path_is_resolved (P := Sample.platform)
           (Sample.devtree Sample.platform)
           "/Sys-0/Node-0" "physical:sys-0/node-0").
  - reflexivity.
  - apply (bool_decide_unpack _). vm_compute. reflexivity.
  - simpl. lia.
  - simpl. lia.
  - simpl. lia.
  - exists (Sample.target Sample.platform "physical:sys-0/node-0"
              Sample.bin_node0).
    split; [apply list_elem_of_further, list_elem_of_here|].
    eexists. split; [reflexivity|]. split; reflexivity.
  - intros t Ht (a & Ha & _ & Hcmp).
    unfold Sample.devtree in Ht.
    repeat (apply elem_of_cons in Ht as [->|Ht]);
      [| | | | | by apply elem_of_nil in Ht];
      try (injection Ha as <-; vm_compute in Hcmp; discriminate Hcmp);
      try discriminate Ha.
    exists (Sample.bin_node0 ++ replicate 16 x00), x22.
    split; [reflexivity|]. split; [reflexivity|].
    split; [reflexivity|]. vm_compute. discriminate.
Defined.

(** X17.  What a call returns depends on the path and on the device
    tree only, not on what the two buffers and the log hold when it
    starts: [g_physStringPath] is written before the traversal reads
    it, and [g_physBinaryPath] is read only after the callback has
    written it. *)
Theorem result_depends_on_path_and_tree_only {P : Platform}
    (devtree : list pdbg_target) (p : string) (σ σ' : Globals) :
  returned (getEntityPathFromDevTree devtree p σ)
  = returned (getEntityPathFromDevTree devtree p σ').
Proof. apply result_independent_of_buffers. Qed.

(** X18.  What a failed call leaves in the buffers.  After the
    "not found" diagnostic [g_physBinaryPath] is as it was before the
    call, so it may still hold the bytes of an earlier call; after the
    "binary value not found" diagnostic it holds zeros; after the size
    diagnostic of line 143 neither buffer has been written. *)
Theorem buffers_after_a_failed_call {P : Platform}
    (devtree : list pdbg_target) (p : string) (σ τ : Globals) :
  getEntityPathFromDevTree devtree p σ = Returns None τ →
  (guard_log_out τ = guard_log_out σ ++ [diag_NotFound] →
   g_physBinaryPath τ = g_physBinaryPath σ) ∧
  (guard_log_out τ = guard_log_out σ ++ [diag_AttributeMissing] →
   g_physBinaryPath τ = replicate sizeof_physBinaryPath x00) ∧
  (∀ a r, guard_log_out τ = guard_log_out σ ++ [diag_TooLong a r] →
          g_physBinaryPath τ = g_physBinaryPath σ ∧
          g_physStringPath τ = g_physStringPath σ).
Proof.
  rewrite getEntityPathFromDevTree_eq.
  destruct (normalizePhysicalPath p) as [l|]; [|done]. cbv zeta.
  destruct (_ >? _).
  { intros [= <-]. split; [|split].
    - intros H. by apply (add_log_inj _ _ σ) in H.
    - intros H. by apply (add_log_inj _ _ σ) in H.
    - done. }
  destruct (search _ devtree) as [|v| |]; [| | |done].
  - intros [= <-]. split; [done|]. split.
    + intros H. by apply (add_log_inj _ _ σ) in H.
    + intros a r H. by apply (add_log_inj _ _ σ) in H.
  - rewrite afterTraverse_found. destruct (_ <? _)%nat.
    { intros [= <-]. split; [|split].
      - intros H. by apply (add_log_inj _ _ σ) in H.
      - intros H. by apply (add_log_inj _ _ σ) in H.
      - intros a r H. by apply (add_log_inj _ _ σ) in H. }
    intros Hd. apply decodePhysBinaryPath_cases in Hd
      as [(ep & ? & _)|(_ & b0 & _ & _ & ->)]; [done|].
    split; [|split].
    + intros H. by apply (add_log_inj _ _ σ) in H.
    + intros H. by apply (add_log_inj _ _ σ) in H.
    + intros a r H. by apply (add_log_inj _ _ σ) in H.
  - intros [= <-]. split; [|split].
    + intros H. by apply (add_log_inj _ _ σ) in H.
    + done.
    + intros a r H. by apply (add_log_inj _ _ σ) in H.
Qed.

Lemma buffers_after_a_failed_call_witness :
  g_physBinaryPath
    (add_log diag_NotFound
       (set_physStringPath (CString.strncpy "physical:sys-0/node-7" 64)
          (set_physBinaryPath (replicate 21 xff)
             (Sample.boot Sample.platform))))
  = replicate 21 xff ∧
  g_physBinaryPath
    (add_log diag_AttributeMissing
       (set_physBinaryPath (replicate 21 x00)
          (set_physStringPath
             (CString.strncpy "physical:sys-0/node-0/proc-2" 64)
             (set_physBinaryPath (replicate 21 xff)
                (Sample.boot Sample.platform)))))
  = replicate 21 x00.
Proof.
  split.
  - apply (proj1 (buffers_after_a_failed_call (P := Sample.platform)
                    (Sample.devtree Sample.platform) "sys-0/node-7"
                    (set_physBinaryPath (replicate 21 xff)
                       (Sample.boot Sample.platform))
                    _ eq_refl)).
    reflexivity.
  - apply (proj1 (proj2 (buffers_after_a_failed_call
                    (P := Sample.platform)
                    (Sample.devtree Sample.platform) "sys-0/node-0/proc-2"
                    (set_physBinaryPath (replicate 21 xff)
                       (Sample.boot Sample.platform))
                    _ eq_refl))).
    reflexivity.
Defined.

(* ================================================================== *)
(** * Further properties: the decoding of [g_physBinaryPath] *)
(* ================================================================== *)

(** X19.  The decoding writes the first elements only, as many as the
    count says: the path it returns has [maxPathElements] cells, those
    from the count on are as the declaration of line 197 left them,
    and the buffers and the log are not changed. *)
Theorem decoder_writes_counted_elements_only {P : Platform}
    (σ τ : Globals) (ep : EntityPath) :
  decodePhysBinaryPath σ = Returns (Some ep) τ →
  τ = σ ∧
  length (pathElements ep) = maxPathElements ∧
  ∀ i : nat,
    Z.land (byteZ (type_size ep)) 0x0F ≤ Z.of_nat i →
    pathElements ep !! i = pathElements EntityPath_init !! i.
Proof.
  intros Hd.
  pose proof (decodePhysBinaryPath_mirrors _ _ _ Hd) as (-> & _ & Hlen).
  split; [done|]. split; [done|]. by eapply decodePhysBinaryPath_rest.
Qed.

Lemma decoder_writes_counted_elements_only_witness :
  set_physBinaryPath (Sample.bin_node0 ++ replicate 16 x00)
    (Sample.boot Sample.platform)
  = set_physBinaryPath (Sample.bin_node0 ++ replicate 16 x00)
      (Sample.boot Sample.platform) ∧
  length (pathElements Sample.ep_node0) = 10%nat ∧
  ∀ i : nat,
    Z.land (byteZ (type_size Sample.ep_node0)) 0x0F ≤ Z.of_nat i →
    pathElements Sample.ep_node0 !! i
    = pathElements (EntityPath_init (P := Sample.platform)) !! i.
Proof.
  apply (decoder_writes_counted_elements_only (P := Sample.platform)
           (set_physBinaryPath (Sample.bin_node0 ++ replicate 16 x00)
              (Sample.boot Sample.platform))).
  reflexivity.
Defined.

(** X20.  The decoding looks at byte 0 and at the pairs the count
    announces, and at nothing behind them: two contents of
    [g_physBinaryPath] that agree on these bytes give the same
    result. *)
Theorem decoder_ignores_trailing_bytes {P : Platform}
    (σ σ' : Globals) (b0 : byte) :
  g_physBinaryPath σ !! 0%nat = Some b0 →
  take (1 + 2 * Z.to_nat (Z.land (byteZ b0) 0x0F)) (g_physBinaryPath σ)
  = take (1 + 2 * Z.to_nat (Z.land (byteZ b0) 0x0F))
      (g_physBinaryPath σ') →
  returned (decodePhysBinaryPath σ) = returned (decodePhysBinaryPath σ').
Proof.
  intros H0 Htake.
  set (n := (1 + 2 * Z.to_nat (Z.land (byteZ b0) 0x0F))%nat) in *.
  assert (Hsame : ∀ m, (m < n)%nat →
            g_physBinaryPath σ !! m = g_physBinaryPath σ' !! m).
  { intros m Hm.
    rewrite <- (lookup_take_lt (g_physBinaryPath σ) n m Hm).
    rewrite <- (lookup_take_lt (g_physBinaryPath σ') n m Hm).
    by rewrite Htake. }
  unfold decodePhysBinaryPath, bind, gets, or_undefined.
  rewrite <- (Hsame 0%nat) by (unfold n; lia). rewrite H0.
  cbv zeta. cbn [type_size]. destruct (_ >? _); [done|].
  rewrite (copyPathElements_ext _ _ _ _ (g_physBinaryPath σ')).
  - by destruct (copyPathElements _ _ _ _ _).
  - intros m Hm. apply Hsame. unfold n. lia.
Qed.

Lemma decoder_ignores_trailing_bytes_witness :
  returned
    (decodePhysBinaryPath (P := Sample.platform)
       (set_physBinaryPath (Sample.bin_node0 ++ replicate 16 x00)
          (Sample.boot Sample.platform)))
  = returned
      (decodePhysBinaryPath (P := Sample.platform)
         (set_physBinaryPath (Sample.bin_node0 ++ replicate 16 xff)
            (Sample.boot Sample.platform))).
Proof.
  apply (decoder_ignores_trailing_bytes (P := Sample.platform)
           (set_physBinaryPath (Sample.bin_node0 ++ replicate 16 x00)
              (Sample.boot Sample.platform))
           (set_physBinaryPath (Sample.bin_node0 ++ replicate 16 xff)
              (Sample.boot Sample.platform))
           x22); reflexivity.
Defined.

(** X21.  The test of line 184 lets a binary attribute pass that is
    smaller than [EntityPath].  When the array is then too short for
    the pairs that its count announces, the loop of lines 210-215
    reads past its end, although the count is within
    [maxPathElements]. *)
Theorem short_array_is_read_past_its_end {P : Platform}
    (σ : Globals) (b0 : byte) :
  (sizeof_physBinaryPath ≤ sizeof_EntityPath)%nat →
  g_physBinaryPath σ !! 0%nat = Some b0 →
  Z.land (byteZ b0) 0x0F ≤ Z.of_nat maxPathElements →
  Z.of_nat (length (g_physBinaryPath σ)) ≤ 2 * Z.land (byteZ b0) 0x0F →
  afterTraverse requireAttrFound σ = Undefined.
Proof.
  intros Hsz H0 Hmax Hshort. rewrite afterTraverse_found.
  rewrite (proj2 (Nat.ltb_ge _ _)) by lia.
  unfold decodePhysBinaryPath, bind, gets, or_undefined.
  rewrite H0. cbv zeta. cbn [type_size].
  destruct (_ >? _) eqn:Egt; [apply Z.gtb_gt in Egt; lia|].
  apply lookup_lt_Some in H0.
  pose proof (low_nibble b0) as [_ Hn].
  rewrite (copyPathElements_short _ 0); [done | lia | lia].
Qed.

Lemma short_array_is_read_past_its_end_witness :
  afterTraverse (P := Sample.short_binary) requireAttrFound
    (set_physBinaryPath [x23; x01; x00; x02; x00]
       (Sample.boot Sample.short_binary))
  = Undefined.
Proof.
  apply (short_array_is_read_past_its_end (P := Sample.short_binary)
           (set_physBinaryPath [x23; x01; x00; x02; x00]
              (Sample.boot Sample.short_binary))
           x23).
  - simpl. lia.
  - reflexivity.
  - vm_compute. discriminate.
  - vm_compute. discriminate.
Defined.
